(** * Bucket notification handlers of package [cmd]

    A shallow embedding of [cmd/bucket-notification-handlers.go]: the
    notification and listener configuration workflows
    ([PutBucketNotificationConfig], [AddBucketListenerConfig],
    [RemoveBucketListenerConfig]), the read handler, the listen handler and
    the streaming loop, followed by the properties proved about them.

    The Go functions run against process-wide state (the object layer, the
    event notifier, the namespace lock, the client connection).  That state is
    the record [World]; every Go function becomes a state transformer
    [M A := World -> A * World], written with stdpp's monadic notation.  Every
    call that leaves the file (lock, persist, peer update, registry access,
    logging) is appended to the chronological call log [calls], so that
    ordering properties can be stated over it. *)

From stdpp Require Import base gmap strings list pretty.

Open Scope string_scope.
Open Scope list_scope.

Module Notification.

Section handlers.

(** ** Declarations that live in other files of the package *)

(** [struct notificationConfig]; [&notificationConfig{}] is its zero value. *)
Variable notificationConfig : Type.
Variable zeroNotificationConfig : notificationConfig.

(** [struct NotificationEvent], one element of a delivered batch. *)
Variable NotificationEvent : Type.

(** Bytes are kept as strings of 8-bit characters. *)
Definition bytes := string.

(** [crlf = []byte("\r\n")] *)
Definition crlf : bytes :=
  String (Ascii.ascii_of_nat 13) (String (Ascii.ascii_of_nat 10) EmptyString).

(** ** Data model *)

(** [filterRule{Name, Value}] *)
Record filterRule := mkFilterRule {
  Name : string;
  Value : string
}.

(** [keyFilter{FilterRules}] *)
Record keyFilter := mkKeyFilter {
  FilterRules : list filterRule
}.

(** [ServiceConfig{Events, Filter{Key}, ID}] *)
Record ServiceConfig := mkServiceConfig {
  Events : list string;
  FilterKey : keyFilter;
  ID : string
}.

(** [topicConfig{TopicARN, ServiceConfig}] *)
Record topicConfig := mkTopicConfig {
  TopicARN : string;
  TopicService : ServiceConfig
}.

(** [listenerConfig{TopicConfig, TargetServer}] *)
Record listenerConfig := mkListenerConfig {
  TopicConfig : topicConfig;
  TargetServer : string
}.

(** Go errors met in this file.  [errPersistNotification cfg e] is the value
    of [fmt.Errorf("Unable to persist Bucket notification config to object
    layer - config=%v errMsg=%v", *ncfg, err)]; [errObjectLayer] and
    [errWrite] stand for whatever the object layer or the connection
    reports. *)
Inductive error :=
| errInvalidArgument
| errNoSuchNotifications
| errListenerExists
| errBucketNotFound
| errObjectLayer (msg : string)
| errWrite (msg : string)
| errMarshal (msg : string)
| errPersistNotification (cfg : notificationConfig) (cause : error).

(** The API error codes named in this file; [ErrOther] covers the rest of the
    enumeration. *)
Inductive APIErrorCode :=
| ErrNone
| ErrServerNotInitialized
| ErrMissingContentLength
| ErrMalformedXML
| ErrOther (code : nat).

Definition isErrNone (c : APIErrorCode) : bool :=
  match c with ErrNone => true | _ => false end.

Definition isNoSuchNotifications (e : error) : bool :=
  match e with errNoSuchNotifications => true | _ => false end.

(** [ObjectLayer] is a handle: the objects themselves are in the [World]. *)
Inductive ObjectLayer : Set := objectLayer.

(** [http.ResponseWriter] is a handle on the client connection of the
    [World]. *)
Inductive ResponseWriter : Set := responseWriter.

(** What reaches the client connection, in order. *)
Inductive wire :=
| WError (code : APIErrorCode) (path : string)
| WSuccess (body : option bytes)
| WHeaders
| WChunk (b : bytes)
| WFlush.

(** A [chan []NotificationEvent] as the receiver sees it: an identity and the
    sends that will be offered on it, each with the instant at which its
    sender becomes ready.  A batch is [None] for a nil slice. *)
Record chan := mkChan {
  chanID : nat;
  chanSends : list (Z * option (list NotificationEvent))
}.

(** Calls that leave the file, as recorded in the call log. *)
Inductive Call :=
| CGetBucketListenerConfig (bucket : string)
| CLock (bucket object : string) (opsID : nat)
| CUnlock (bucket object : string) (opsID : nat)
| CPersistNotificationConfig (bucket : string) (cfg : notificationConfig)
    (res : option error)
| CPersistListenerConfig (bucket : string) (lcfgs : list listenerConfig)
    (res : option error)
| CLoadNotificationConfig (bucket : string)
| CUpdateBucketNotification (bucket : string) (cfg : notificationConfig)
| CUpdateBucketListener (bucket : string) (lcfgs : list listenerConfig)
| CAddListenerChan (arn : string) (ch : nat) (res : option error)
| CRemoveListenerChan (arn : string)
| CGetBucketInfo (bucket : string)
| CCloseChan (ch : nat)
| CErrorIf (err : error) (msg : string).

(** ** Process-wide state *)

Record World := mkWorld {
  (** object layer: [buckets/<bucket>/notification.xml] *)
  objNotification : gmap string notificationConfig;
  (** object layer: [buckets/<bucket>/listener.json] *)
  objListener : gmap string (list listenerConfig);
  (** object layer: the buckets that exist *)
  objBuckets : gset string;
  (** outcome of the coming object-layer operations, oldest first; an
      exhausted schedule means success *)
  storageFaults : list (option error);
  (** [globalEventNotifier]: cached notification configuration per bucket *)
  notifierNotification : gmap string notificationConfig;
  (** [globalEventNotifier]: cached listener sequence per bucket *)
  notifierListeners : gmap string (list listenerConfig);
  (** [globalEventNotifier]: delivery channel per destination *)
  notifierChans : gmap string nat;
  (** [nsMutex]: holder of each (bucket, object) lock *)
  nsLocks : gmap (string * string) nat;
  (** source of [getOpsID] *)
  opsCounter : nat;
  (** source of channel identities *)
  chanCounter : nat;
  (** wall clock, in nanoseconds since the epoch *)
  clock : Z;
  (** what the client connection has received *)
  sent : list wire;
  (** outcome of the coming writes to the client, oldest first *)
  writeFaults : list (option error);
  (** chronological log of the calls that left this file *)
  calls : list Call
}.

Definition set_objNotification (f : gmap string notificationConfig → gmap string notificationConfig) (w : World) : World :=
  mkWorld (f (objNotification w)) (objListener w) (objBuckets w) (storageFaults w)
    (notifierNotification w) (notifierListeners w) (notifierChans w) (nsLocks w)
    (opsCounter w) (chanCounter w) (clock w) (sent w) (writeFaults w) (calls w).

Definition set_objListener (f : gmap string (list listenerConfig) → gmap string (list listenerConfig)) (w : World) : World :=
  mkWorld (objNotification w) (f (objListener w)) (objBuckets w) (storageFaults w)
    (notifierNotification w) (notifierListeners w) (notifierChans w) (nsLocks w)
    (opsCounter w) (chanCounter w) (clock w) (sent w) (writeFaults w) (calls w).

Definition set_storageFaults (f : list (option error) → list (option error)) (w : World) : World :=
  mkWorld (objNotification w) (objListener w) (objBuckets w) (f (storageFaults w))
    (notifierNotification w) (notifierListeners w) (notifierChans w) (nsLocks w)
    (opsCounter w) (chanCounter w) (clock w) (sent w) (writeFaults w) (calls w).

Definition set_notifierNotification (f : gmap string notificationConfig → gmap string notificationConfig) (w : World) : World :=
  mkWorld (objNotification w) (objListener w) (objBuckets w) (storageFaults w)
    (f (notifierNotification w)) (notifierListeners w) (notifierChans w) (nsLocks w)
    (opsCounter w) (chanCounter w) (clock w) (sent w) (writeFaults w) (calls w).

Definition set_notifierListeners (f : gmap string (list listenerConfig) → gmap string (list listenerConfig)) (w : World) : World :=
  mkWorld (objNotification w) (objListener w) (objBuckets w) (storageFaults w)
    (notifierNotification w) (f (notifierListeners w)) (notifierChans w) (nsLocks w)
    (opsCounter w) (chanCounter w) (clock w) (sent w) (writeFaults w) (calls w).

Definition set_notifierChans (f : gmap string nat → gmap string nat) (w : World) : World :=
  mkWorld (objNotification w) (objListener w) (objBuckets w) (storageFaults w)
    (notifierNotification w) (notifierListeners w) (f (notifierChans w)) (nsLocks w)
    (opsCounter w) (chanCounter w) (clock w) (sent w) (writeFaults w) (calls w).

Definition set_nsLocks (f : gmap (string * string) nat → gmap (string * string) nat) (w : World) : World :=
  mkWorld (objNotification w) (objListener w) (objBuckets w) (storageFaults w)
    (notifierNotification w) (notifierListeners w) (notifierChans w) (f (nsLocks w))
    (opsCounter w) (chanCounter w) (clock w) (sent w) (writeFaults w) (calls w).

Definition set_opsCounter (f : nat → nat) (w : World) : World :=
  mkWorld (objNotification w) (objListener w) (objBuckets w) (storageFaults w)
    (notifierNotification w) (notifierListeners w) (notifierChans w) (nsLocks w)
    (f (opsCounter w)) (chanCounter w) (clock w) (sent w) (writeFaults w) (calls w).

Definition set_chanCounter (f : nat → nat) (w : World) : World :=
  mkWorld (objNotification w) (objListener w) (objBuckets w) (storageFaults w)
    (notifierNotification w) (notifierListeners w) (notifierChans w) (nsLocks w)
    (opsCounter w) (f (chanCounter w)) (clock w) (sent w) (writeFaults w) (calls w).

Definition set_clock (f : Z → Z) (w : World) : World :=
  mkWorld (objNotification w) (objListener w) (objBuckets w) (storageFaults w)
    (notifierNotification w) (notifierListeners w) (notifierChans w) (nsLocks w)
    (opsCounter w) (chanCounter w) (f (clock w)) (sent w) (writeFaults w) (calls w).

Definition set_sent (f : list wire → list wire) (w : World) : World :=
  mkWorld (objNotification w) (objListener w) (objBuckets w) (storageFaults w)
    (notifierNotification w) (notifierListeners w) (notifierChans w) (nsLocks w)
    (opsCounter w) (chanCounter w) (clock w) (f (sent w)) (writeFaults w) (calls w).

Definition set_writeFaults (f : list (option error) → list (option error)) (w : World) : World :=
  mkWorld (objNotification w) (objListener w) (objBuckets w) (storageFaults w)
    (notifierNotification w) (notifierListeners w) (notifierChans w) (nsLocks w)
    (opsCounter w) (chanCounter w) (clock w) (sent w) (f (writeFaults w)) (calls w).

Definition set_calls (f : list Call → list Call) (w : World) : World :=
  mkWorld (objNotification w) (objListener w) (objBuckets w) (storageFaults w)
    (notifierNotification w) (notifierListeners w) (notifierChans w) (nsLocks w)
    (opsCounter w) (chanCounter w) (clock w) (sent w) (writeFaults w) (f (calls w)).

(** ** The state monad *)

Definition M (A : Type) : Type := World → A * World.

#[local] Instance M_ret : MRet M := λ A (a : A) w, (a, w).
#[local] Instance M_bind : MBind M := λ A B (k : A → M B) (m : M A) w,
  let (a, w') := m w in k a w'.

Definition gets {A} (f : World → A) : M A := λ w, (f w, w).
Definition modify (f : World → World) : M unit := λ w, (tt, f w).

(** Record a call in the log. *)
Definition call (c : Call) : M unit := modify (set_calls (λ l, l ++ [c])).

(** [defer d] in front of [body]: [d] runs when [body] has returned, and the
    value of [body] is the value of the function. *)
Definition defer {A} (d : M unit) (body : M A) : M A :=
  r ← body; d;; mret r.

(** ** Collaborators declared in other files

    Their bodies are not part of this file; each is modelled by the effect
    the specification gives it on the [World]. *)

(** The object layer answers the next operation with the head of the fault
    schedule. *)
Definition storageOutcome : M (option error) := λ w,
  match storageFaults w with
  | [] => (None, w)
  | o :: rest => (o, set_storageFaults (λ _, rest) w)
  end.

(** Modelled from the spec: [getOpsID] is declared in another file; it hands
    out an operation identifier that no earlier call returned. *)
Definition getOpsID : M nat := λ w, (opsCounter w, set_opsCounter S w).

(** Modelled from the spec: [nsMutex.Lock] is declared in another file;
    [lock(bucket)] is a mutual-exclusion primitive keyed by bucket name.  The
    call returns when the lock is granted; the wait itself is not modelled. *)
Definition nsMutex_Lock (bucket object : string) (opsID : nat) : M unit :=
  call (CLock bucket object opsID);;
  modify (set_nsLocks (insert (bucket, object) opsID)).

(** Modelled from the spec: [nsMutex.Unlock] is declared in another file;
    [unlock(bucket)] releases the lock. *)
Definition nsMutex_Unlock (bucket object : string) (opsID : nat) : M unit :=
  call (CUnlock bucket object opsID);;
  modify (set_nsLocks (delete (bucket, object))).

(** Modelled from the spec: [persistNotificationConfig] is declared in another
    file; [saveNotificationConfig(bucket, cfg) -> ok | error] overwrites in
    place, and a failed save leaves the store as it was. *)
Definition persistNotificationConfig (bucket : string)
    (ncfg : notificationConfig) (objAPI : ObjectLayer) : M (option error) :=
  res ← storageOutcome;
  call (CPersistNotificationConfig bucket ncfg res);;
  match res with
  | Some e => mret (Some e)
  | None => modify (set_objNotification (insert bucket ncfg));; mret None
  end.

(** Modelled from the spec: [persistListenerConfig] is declared in another
    file; [saveListenerConfigs(bucket, seq)] has the same shape as the save of
    the notification configuration. *)
Definition persistListenerConfig (bucket : string)
    (lcfgs : list listenerConfig) (objAPI : ObjectLayer) : M (option error) :=
  res ← storageOutcome;
  call (CPersistListenerConfig bucket lcfgs res);;
  match res with
  | Some e => mret (Some e)
  | None => modify (set_objListener (insert bucket lcfgs));; mret None
  end.

(** Modelled from the spec: [loadNotificationConfig] is declared in another
    file; [loadNotificationConfig(bucket) -> NotificationConfig | NotFound],
    absence being the distinguished outcome [errNoSuchNotifications]. *)
Definition loadNotificationConfig (bucket : string) (objAPI : ObjectLayer)
    : M (option notificationConfig * option error) :=
  call (CLoadNotificationConfig bucket);;
  res ← storageOutcome;
  match res with
  | Some e => mret (None, Some e)
  | None =>
      stored ← gets (λ w, objNotification w !! bucket);
      match stored with
      | Some cfg => mret (Some cfg, None)
      | None => mret (None, Some errNoSuchNotifications)
      end
  end.

(** Modelled from the spec: [S3PeersUpdateBucketNotification] is declared in
    another file; [broadcastNotificationConfig(bucket, cfg)] makes every node,
    the local one included, update its in-memory configuration; an
    unreachable peer is not an error of the call. *)
Definition S3PeersUpdateBucketNotification (bucket : string)
    (ncfg : notificationConfig) : M unit :=
  call (CUpdateBucketNotification bucket ncfg);;
  modify (set_notifierNotification (insert bucket ncfg)).

(** Modelled from the spec: [S3PeersUpdateBucketListener] is declared in
    another file; [broadcastListenerConfigs(bucket, seq)] makes every node,
    the local one included, replace its cached listener sequence. *)
Definition S3PeersUpdateBucketListener (bucket : string)
    (lcfgs : list listenerConfig) : M unit :=
  call (CUpdateBucketListener bucket lcfgs);;
  modify (set_notifierListeners (insert bucket lcfgs)).

(** Modelled from the spec: [globalEventNotifier.GetBucketListenerConfig] is
    declared in another file; [getListenerConfigs(bucket) -> sequence] returns
    the cached, peer-propagated view (empty for an unknown bucket).  The
    sequence is returned by value. *)
Definition GetBucketListenerConfig (bucket : string)
    : M (list listenerConfig) :=
  call (CGetBucketListenerConfig bucket);;
  gets (λ w, default [] (notifierListeners w !! bucket)).

(** Modelled from the spec: [globalEventNotifier.AddListenerChan] is declared
    in another file; [addListener(destinationID, channel) -> ok |
    AlreadyExists] fails if the identifier already has a channel. *)
Definition AddListenerChan (arn : string) (ch : chan) : M (option error) :=
  cur ← gets (λ w, notifierChans w !! arn);
  match cur with
  | Some _ =>
      call (CAddListenerChan arn (chanID ch) (Some errListenerExists));;
      mret (Some errListenerExists)
  | None =>
      call (CAddListenerChan arn (chanID ch) None);;
      modify (set_notifierChans (insert arn (chanID ch)));;
      mret None
  end.

(** Modelled from the spec: [globalEventNotifier.RemoveListenerChan] is
    declared in another file; [removeListener(destinationID)] is idempotent,
    a no-op if absent. *)
Definition RemoveListenerChan (arn : string) : M unit :=
  call (CRemoveListenerChan arn);;
  modify (set_notifierChans (delete arn)).

(** Modelled from the spec: [ObjectLayer.GetBucketInfo] is declared in
    another file; [bucketExists(bucket)] of the storage engine. *)
Definition GetBucketInfo (objAPI : ObjectLayer) (bucket : string)
    : M (option error) :=
  call (CGetBucketInfo bucket);;
  res ← storageOutcome;
  match res with
  | Some e => mret (Some e)
  | None =>
      known ← gets (λ w, bool_decide (bucket ∈ objBuckets w));
      mret (if known : bool then None else Some errBucketNotFound)
  end.

(** Modelled from the spec: [errorIf] is declared in another file; failures
    that are not surfaced are logged.  The model records the log line. *)
Definition errorIf (err : error) (msg : string) : M unit :=
  call (CErrorIf err msg).

(** Modelled from the spec: [writeErrorResponse(w, r, code, path)] is declared
    in another file; the request layer reports the error to the caller. *)
Definition writeErrorResponse (w : ResponseWriter) (code : APIErrorCode)
    (path : string) : M unit :=
  modify (set_sent (λ l, l ++ [WError code path])).

(** Modelled from the spec: [writeSuccessResponse(w, body)] is declared in
    another file; the request layer sends the successful answer. *)
Definition writeSuccessResponse (w : ResponseWriter) (body : option bytes)
    : M unit :=
  modify (set_sent (λ l, l ++ [WSuccess body])).

(** Modelled from the spec: [setCommonHeaders(w)] is declared in another
    file; it belongs to the request layer and writes no body. *)
Definition setCommonHeaders (w : ResponseWriter) : M unit :=
  modify (set_sent (λ l, l ++ [WHeaders])).

(** Modelled from the spec: [w.Write(b)] of the response stream (write, flush,
    detect a broken pipe).  The connection answers with the head of the
    write-fault schedule; a failed write delivers nothing. *)
Definition Write (w : ResponseWriter) (b : bytes) : M (option error) := λ st,
  match writeFaults st with
  | Some e :: rest => (Some e, set_writeFaults (λ _, rest) st)
  | None :: rest =>
      (None, set_sent (λ l, l ++ [WChunk b]) (set_writeFaults (λ _, rest) st))
  | [] => (None, set_sent (λ l, l ++ [WChunk b]) st)
  end.

(** Modelled from the spec: [w.(http.Flusher).Flush()] of the response
    stream. *)
Definition Flush (w : ResponseWriter) : M unit :=
  modify (set_sent (λ l, l ++ [WFlush])).

(** [make(chan []NotificationEvent)]: a channel with a new identity; the
    sends that will be offered on it are given by the environment. *)
Definition makeChan (sends : list (Z * option (list NotificationEvent)))
    : M chan := λ w,
  (mkChan (chanCounter w) sends, set_chanCounter S w).

(** [close(ch)] *)
Definition closeChan (ch : chan) : M unit := call (CCloseChan (chanID ch)).

(** [globalIsDistXL]: whether the deployment is multi-node. *)
Variable globalIsDistXL : bool.

(** ** The configuration workflows *)

(** [PutBucketNotificationConfig(bucket, ncfg, objAPI)]; a nil [ncfg] is
    [None]. *)
Definition PutBucketNotificationConfig (bucket : string)
    (ncfg : option notificationConfig) (objAPI : ObjectLayer)
    : M (option error) :=
  match ncfg with
  | None => mret (Some errInvalidArgument)
  | Some cfg =>
      opsID ← getOpsID;
      nsMutex_Lock bucket "" opsID;;
      defer (nsMutex_Unlock bucket "" opsID)
        (err ← persistNotificationConfig bucket cfg objAPI;
         match err with
         | Some e => mret (Some (errPersistNotification cfg e))
         | None =>
             S3PeersUpdateBucketNotification bucket cfg;;
             mret None
         end)
  end.

(** [AddBucketListenerConfig(bucket, lcfg, objAPI)]; a nil [lcfg] is
    [None]. *)
Definition AddBucketListenerConfig (bucket : string)
    (lcfg : option listenerConfig) (objAPI : ObjectLayer)
    : M (option error) :=
  match lcfg with
  | None => mret (Some errInvalidArgument)
  | Some lc =>
      listenerCfgs ← GetBucketListenerConfig bucket;
      let listenerCfgs := listenerCfgs ++ [lc] in
      opsID ← getOpsID;
      nsMutex_Lock bucket "" opsID;;
      defer (nsMutex_Unlock bucket "" opsID)
        (if globalIsDistXL then
           err ← persistListenerConfig bucket listenerCfgs objAPI;
           match err with
           | Some e =>
               errorIf e "Error persisting listener config when adding a listener.";;
               mret (Some e)
           | None =>
               S3PeersUpdateBucketListener bucket listenerCfgs;;
               mret None
           end
         else
           S3PeersUpdateBucketListener bucket listenerCfgs;;
           mret None)
  end.

(** The [for k, configuredLcfg := range listenerCfgs] loop of
    [RemoveBucketListenerConfig], entered at index [k] with [rest] still to
    visit: at the first entry whose [TopicARN] equals [arn] it yields
    [append(listenerCfgs[:k], listenerCfgs[k+1:]...)] and breaks; [None] is
    [found == false]. *)
Fixpoint removeLoop (listenerCfgs : list listenerConfig) (arn : string)
    (k : nat) (rest : list listenerConfig) : option (list listenerConfig) :=
  match rest with
  | [] => None
  | configuredLcfg :: rest' =>
      if bool_decide (TopicARN (TopicConfig configuredLcfg) = arn)
      then Some (take k listenerCfgs ++ drop (S k) listenerCfgs)
      else removeLoop listenerCfgs arn (S k) rest'
  end.

(** How a call of [RemoveBucketListenerConfig] ends: it returns, or it
    dereferences a nil [lcfg] in the loop condition. *)
Inductive outcome := Returned | NilDereference.

(** [RemoveBucketListenerConfig(bucket, lcfg, objAPI)]; a nil [lcfg] is
    [None], and is dereferenced on the first iteration of the loop. *)
Definition RemoveBucketListenerConfig (bucket : string)
    (lcfg : option listenerConfig) (objAPI : ObjectLayer) : M outcome :=
  listenerCfgs ← GetBucketListenerConfig bucket;
  match lcfg with
  | None =>
      match listenerCfgs with
      | [] => mret Returned
      | _ :: _ => mret NilDereference
      end
  | Some lc =>
      match removeLoop listenerCfgs (TopicARN (TopicConfig lc)) 0 listenerCfgs with
      | None => mret Returned
      | Some updatedLcfgs =>
          opsID ← getOpsID;
          nsMutex_Lock bucket "" opsID;;
          defer (nsMutex_Unlock bucket "" opsID)
            (if globalIsDistXL then
               err ← persistListenerConfig bucket updatedLcfgs objAPI;
               match err with
               | Some e =>
                   errorIf e "Error persisting listener config when removing a listener.";;
                   mret Returned
               | None =>
                   S3PeersUpdateBucketListener bucket updatedLcfgs;;
                   mret Returned
               end
             else
               S3PeersUpdateBucketListener bucket updatedLcfgs;;
               mret Returned)
      end
  end.

(** ** Request handling *)

(** [url.Values], the parsed query of a request. *)
Variable Values : Type.

(** The parts of [*http.Request] the handlers read: [r.URL.Path],
    [mux.Vars(r)] and [r.URL.Query()]. *)
Record Request := mkRequest {
  URLPath : string;
  Vars : gmap string string;
  Query : Values
}.

(** [objectAPIHandlers]: [api.ObjectAPI()] is nil until the server is
    initialised. *)
Record objectAPIHandlers := mkAPI {
  ObjectAPI : option ObjectLayer
}.

(** Functions and constants of other files, and of Go's libraries. *)
Variable checkAuth : Request → APIErrorCode.
Variable toAPIErrorCode : error → APIErrorCode.
Variable validateFilterValues : list string → APIErrorCode.
Variable checkEvent : string → APIErrorCode.
Variable getListenBucketNotificationResources :
  Values → list string * list string * list string.
(** [xml.Marshal] at [*notificationConfig] *)
Variable xml_Marshal : option notificationConfig → bytes + error.
(** [json.Marshal] at [*map[string][]NotificationEvent] *)
Variable json_Marshal :
  gmap string (option (list NotificationEvent)) → bytes + error.
Variable minioTopic : string.
Variable snsTypeMinio : string.
(** [serverConfig.GetRegion()] *)
Variable serverRegion : string.
Variable globalMinioAddr : string.
(** [globalSNSConnAlive], the keep-alive interval, in nanoseconds. *)
Variable globalSNSConnAlive : Z.
(** Which case [select] takes when the sender becomes ready at the very
    instant the timer fires. *)
Variable selectTie : Z → bool.

(** [vars["bucket"]]: a missing key reads as the empty string. *)
Definition bucketOf (r : Request) : string := default "" (Vars r !! "bucket").

(** [GetBucketNotificationHandler(w, r)] *)
Definition GetBucketNotificationHandler (api : objectAPIHandlers)
    (w : ResponseWriter) (r : Request) : M unit :=
  match ObjectAPI api with
  | None => writeErrorResponse w ErrServerNotInitialized (URLPath r)
  | Some objAPI =>
      let s3Error := checkAuth r in
      if negb (isErrNone s3Error) then writeErrorResponse w s3Error (URLPath r)
      else
        let bucket := bucketOf r in
        '(nConfig, err) ← loadNotificationConfig bucket objAPI;
        (* from [xml.Marshal(nConfig)] to the end of the function *)
        let respond (nConfig : option notificationConfig) : M unit :=
          match xml_Marshal nConfig with
          | inr e =>
              errorIf e "Unable to marshal notification configuration into XML.";;
              writeErrorResponse w (toAPIErrorCode e) (URLPath r)
          | inl notificationBytes =>
              writeSuccessResponse w (Some notificationBytes)
          end in
        match err with
        | Some e =>
            if negb (isNoSuchNotifications e) then
              errorIf e "Unable to read notification configuration.";;
              writeErrorResponse w (toAPIErrorCode e) (URLPath r)
            else
              (* [err == errNoSuchNotifications]: a dummy XML is written *)
              respond (Some zeroNotificationConfig)
        | None => respond nConfig
        end
  end.

(** [writeNotification(w, notification)]; a nil writer and a nil map are
    [None]. *)
Definition writeNotification (w : option ResponseWriter)
    (notification : option (gmap string (option (list NotificationEvent))))
    : M (option error) :=
  match w with
  | None => mret (Some errInvalidArgument)
  | Some w =>
      match notification with
      | None => mret (Some errInvalidArgument)
      | Some notification =>
          match json_Marshal notification with
          | inr e => mret (Some e)
          | inl notificationBytes =>
              err ← Write w (notificationBytes +:+ crlf);
              Flush w;;
              mret err
          end
      end
  end.

(** What one [select] of the streaming loop yields, entered at instant [now]:
    the batch at the head of the channel when its sender is ready before the
    keep-alive timer fires (the receive then happens at [at]), the timeout
    otherwise. *)
Inductive selected :=
| SelEvents (events : option (list NotificationEvent)) (at_ : Z)
    (rest : list (Z * option (list NotificationEvent)))
| SelTimeout.

Definition selectCase (now : Z)
    (sends : list (Z * option (list NotificationEvent))) : selected :=
  match sends with
  | [] => SelTimeout
  | (t, events) :: rest =>
      if (t <? now + globalSNSConnAlive)%Z then SelEvents events (Z.max now t) rest
      else if (now + globalSNSConnAlive <? t)%Z then SelTimeout
      else if selectTie t then SelEvents events t rest
      else SelTimeout
  end.

(** [dummyEvents = map[string][]NotificationEvent{"Records": nil}] *)
Definition dummyEvents : gmap string (option (list NotificationEvent)) :=
  {[ "Records" := None ]}.

(** [sendBucketNotification(w, arnListenerCh)].  The Go loop ends only on a
    write error; [fuel] bounds the number of iterations that are followed, and
    the result says whether the function has returned ([true]) or is still in
    its loop ([false]). *)
Fixpoint sendBucketNotification (fuel : nat) (w : option ResponseWriter)
    (arnListenerCh : chan) : M bool :=
  match fuel with
  | O => mret false
  | S fuel' =>
      now ← gets clock;
      match selectCase now (chanSends arnListenerCh) with
      | SelEvents events at_ rest =>
          modify (set_clock (λ _, at_));;
          err ← writeNotification w (Some {[ "Records" := events ]});
          match err with
          | Some e =>
              errorIf e "Unable to write notification to client.";;
              mret true
          | None =>
              sendBucketNotification fuel' w (mkChan (chanID arnListenerCh) rest)
          end
      | SelTimeout =>
          modify (set_clock (λ _, (now + globalSNSConnAlive)%Z));;
          err ← writeNotification w (Some dummyEvents);
          match err with
          | Some e =>
              errorIf e "Unable to write notification to client.";;
              mret true
          | None => sendBucketNotification fuel' w arnListenerCh
          end
      end
  end.

(** [defer d] in a function that may still be running: [d] runs only once
    [body] has returned. *)
Definition deferExit (d : M unit) (body : M bool) : M bool :=
  returned ← body;
  if returned : bool then d;; mret true else mret false.

(** The [for _, event := range events] validation loop: the code of the first
    event that [checkEvent] rejects. *)
Fixpoint firstInvalidEvent (events : list string) : option APIErrorCode :=
  match events with
  | [] => None
  | event :: rest =>
      let errCode := checkEvent event in
      if negb (isErrNone errCode) then Some errCode else firstInvalidEvent rest
  end.

(** [accountARN] of a listen request received at instant [now]. *)
Definition accountIDOf (now : Z) : string := pretty now.

Definition accountARNOf (now : Z) : string :=
  minioTopic +:+ ":" +:+ serverRegion +:+ ":" +:+ accountIDOf now +:+ ":"
    +:+ snsTypeMinio +:+ "-" +:+ globalMinioAddr.

(** The [listenerConfig] a listen request registers. *)
Definition listenerConfigOf (now : Z) (prefixes suffixes events : list string)
    : listenerConfig :=
  let filterRules :=
    map (mkFilterRule "prefix") prefixes ++ map (mkFilterRule "suffix") suffixes in
  let topicCfg :=
    mkTopicConfig (accountARNOf now)
      (mkServiceConfig events (mkKeyFilter filterRules) ("sns-" +:+ accountIDOf now)) in
  mkListenerConfig topicCfg globalMinioAddr.

(** [ListenBucketNotificationHandler(w, r)].  [sends] is what will be offered
    on the channel the handler creates; the result is [true] when the handler
    has returned and [false] when it is still streaming after [fuel]
    iterations of the loop. *)
Definition ListenBucketNotificationHandler (fuel : nat)
    (sends : list (Z * option (list NotificationEvent)))
    (api : objectAPIHandlers) (w : ResponseWriter) (r : Request) : M bool :=
  match ObjectAPI api with
  | None => writeErrorResponse w ErrServerNotInitialized (URLPath r);; mret true
  | Some objAPI =>
      let s3Error := checkAuth r in
      if negb (isErrNone s3Error)
      then writeErrorResponse w s3Error (URLPath r);; mret true
      else
        let bucket := bucketOf r in
        let '(prefixes, suffixes, events) :=
          getListenBucketNotificationResources (Query r) in
        if negb (isErrNone (validateFilterValues prefixes))
        then writeErrorResponse w (validateFilterValues prefixes) (URLPath r);; mret true
        else if negb (isErrNone (validateFilterValues suffixes))
        then writeErrorResponse w (validateFilterValues suffixes) (URLPath r);; mret true
        else
          match firstInvalidEvent events with
          | Some errCode => writeErrorResponse w errCode (URLPath r);; mret true
          | None =>
              err ← GetBucketInfo objAPI bucket;
              match err with
              | Some e =>
                  errorIf e "Unable to get bucket info.";;
                  writeErrorResponse w (toAPIErrorCode e) (URLPath r);;
                  mret true
              | None =>
                  now ← gets clock;
                  let accountARN := accountARNOf now in
                  nEventCh ← makeChan sends;
                  deferExit (closeChan nEventCh)
                    (err ← AddListenerChan accountARN nEventCh;
                     match err with
                     | Some e =>
                         errorIf e "Error adding a listener!";;
                         writeErrorResponse w (toAPIErrorCode e) (URLPath r);;
                         mret true
                     | None =>
                         deferExit (RemoveListenerChan accountARN)
                           (let lc := listenerConfigOf now prefixes suffixes events in
                            err ← AddBucketListenerConfig bucket (Some lc) objAPI;
                            match err with
                            | Some e =>
                                writeErrorResponse w (toAPIErrorCode e) (URLPath r);;
                                mret true
                            | None =>
                                deferExit
                                  (RemoveBucketListenerConfig bucket (Some lc) objAPI;;
                                   mret tt)
                                  (setCommonHeaders w;;
                                   sendBucketNotification fuel (Some w) nEventCh)
                            end)
                     end)
              end
          end
  end.

(** ** Vocabulary of the properties *)

(** The destination identifier of a listener. *)
Definition arnOf (lc : listenerConfig) : string := TopicARN (TopicConfig lc).

(** The cached listener sequence of a bucket. *)
Definition cachedListeners (w : World) (bucket : string) : list listenerConfig :=
  default [] (notifierListeners w !! bucket).

(** The calls an operation added to the log, given the worlds before and
    after it. *)
Definition newCalls (w w' : World) : list Call :=
  drop (length (calls w)) (calls w').

(** What an operation sent to the client. *)
Definition newlySent (w w' : World) : list wire :=
  drop (length (sent w)) (sent w').

Definition isRead (bucket : string) (c : Call) : bool :=
  match c with
  | CGetBucketListenerConfig b => bool_decide (b = bucket)
  | _ => false
  end.

Definition isLock (bucket : string) (c : Call) : bool :=
  match c with
  | CLock b _ _ => bool_decide (b = bucket)
  | _ => false
  end.

Definition isPersist (c : Call) : bool :=
  match c with
  | CPersistNotificationConfig _ _ _ | CPersistListenerConfig _ _ _ => true
  | _ => false
  end.

Definition isPersistOk (c : Call) : bool :=
  match c with
  | CPersistNotificationConfig _ _ None | CPersistListenerConfig _ _ None => true
  | _ => false
  end.

Definition isPersistFailed (c : Call) : bool :=
  match c with
  | CPersistNotificationConfig _ _ (Some _)
  | CPersistListenerConfig _ _ (Some _) => true
  | _ => false
  end.

Definition isBroadcast (c : Call) : bool :=
  match c with
  | CUpdateBucketNotification _ _ | CUpdateBucketListener _ _ => true
  | _ => false
  end.

(** Position of the first call of a kind. *)
Fixpoint firstIndex (p : Call → bool) (l : list Call) : option nat :=
  match l with
  | [] => None
  | c :: l' => if p c then Some 0 else S <$> firstIndex p l'
  end.

(** A call of kind [p] and a call of kind [q] both occur, the first [p]
    strictly before the first [q]. *)
Definition occursBefore (p q : Call → bool) (l : list Call) : bool :=
  match firstIndex p l, firstIndex q l with
  | Some i, Some j => bool_decide (i < j)
  | _, _ => false
  end.

(** The calls between [Lock] and [Unlock] of a listener update: the persist
    (multi-node only) with the outcome [fault] of the object layer, then the
    peer update, or the log line of the failed persist. *)
Definition guardedCalls (msg : string) (bucket : string)
    (lcfgs : list listenerConfig) (fault : option error) : list Call :=
  if globalIsDistXL then
    match fault with
    | Some e => [CPersistListenerConfig bucket lcfgs (Some e); CErrorIf e msg]
    | None =>
        [CPersistListenerConfig bucket lcfgs None;
         CUpdateBucketListener bucket lcfgs]
    end
  else [CUpdateBucketListener bucket lcfgs].

(** The outcome the object layer gives to its next operation. *)
Definition nextFault (w : World) : option error :=
  match storageFaults w with
  | o :: _ => o
  | [] => None
  end.

(** The chunks among what was sent. *)
Definition chunksOf (l : list wire) : list bytes :=
  omap (λ x, match x with WChunk b => Some b | _ => None end) l.

(** A streamed unit: the JSON of a map with the single key ["Records"] bound
    to [v], followed by CRLF. *)
Definition isFrameOf (v : option (list NotificationEvent)) (unit_ : bytes) : Prop :=
  ∃ b, json_Marshal {[ "Records" := v ]} = inl b ∧ unit_ = b +:+ crlf.

(** The log lines of a failed persist. *)
Definition msgAdd : string :=
  "Error persisting listener config when adding a listener.".
Definition msgRemove : string :=
  "Error persisting listener config when removing a listener.".

(** The calls of [PutBucketNotificationConfig] between [Lock] and [Unlock]. *)
Definition putCalls (bucket : string) (cfg : notificationConfig)
    (fault : option error) : list Call :=
  match fault with
  | Some e => [CPersistNotificationConfig bucket cfg (Some e)]
  | None =>
      [CPersistNotificationConfig bucket cfg None;
       CUpdateBucketNotification bucket cfg]
  end.

(** A value streamed from a channel: the nil of a heartbeat, or one of the
    batches offered on the channel. *)
Definition streamedFrom (sends : list (Z * option (list NotificationEvent)))
    (v : option (list NotificationEvent)) : Prop :=
  v = None ∨ ∃ t, (t, v) ∈ sends.

(** What may reach the client during streaming: flushes, and units that frame
    a value streamed from the channel. *)
Definition streamWire (sends : list (Z * option (list NotificationEvent)))
    (x : wire) : Prop :=
  match x with
  | WChunk unit_ => ∃ v, streamedFrom sends v ∧ isFrameOf v unit_
  | WFlush => True
  | _ => False
  end.

(** The parsed resources of a listen request. *)
Definition prefixesOf (r : Request) : list string :=
  (getListenBucketNotificationResources (Query r)).1.1.
Definition suffixesOf (r : Request) : list string :=
  (getListenBucketNotificationResources (Query r)).1.2.
Definition eventsOf (r : Request) : list string :=
  (getListenBucketNotificationResources (Query r)).2.

(** ** The rest of the file: the put handler *)

(** [io.ReadCloser], the body of a request, with [io.CopyN] and [io.Copy] into
    a fresh buffer: the bytes read and the error of the copy. *)
Variable ReadCloser : Type.
Variable io_CopyN : ReadCloser → Z → bytes * option error.
Variable io_Copy : ReadCloser → bytes * option error.
(** [xml.Unmarshal] at [*notificationConfig] *)
Variable xml_Unmarshal : bytes → notificationConfig + error.
Variable validateNotificationConfig : notificationConfig → APIErrorCode.
(** [contains(stringList, element)] *)
Variable contains : list string → string → bool.

(** What [PutBucketNotificationHandler] reads of its request besides the
    parts of [Request]: [r.TransferEncoding], [r.ContentLength] and
    [r.Body]. *)
Record PutRequest := mkPutRequest {
  putRequest : Request;
  TransferEncoding : list string;
  ContentLength : Z;
  RequestBody : ReadCloser
}.

(** [PutBucketNotificationHandler(w, r)] *)
Definition PutBucketNotificationHandler (api : objectAPIHandlers)
    (w : ResponseWriter) (r : PutRequest) : M unit :=
  let path := URLPath (putRequest r) in
  match ObjectAPI api with
  | None => writeErrorResponse w ErrServerNotInitialized path
  | Some objectAPI =>
      let s3Error := checkAuth (putRequest r) in
      if negb (isErrNone s3Error) then writeErrorResponse w s3Error path
      else
        let bucket := bucketOf (putRequest r) in
        err ← GetBucketInfo objectAPI bucket;
        match err with
        | Some e =>
            errorIf e "Unable to find bucket info.";;
            writeErrorResponse w (toAPIErrorCode e) path
        | None =>
            if negb (contains (TransferEncoding r) "chunked")
               && (ContentLength r =? -1)%Z
            then writeErrorResponse w ErrMissingContentLength path
            else
              let '(buffer, err) :=
                if (0 <=? ContentLength r)%Z
                then io_CopyN (RequestBody r) (ContentLength r)
                else io_Copy (RequestBody r) in
              match err with
              | Some e =>
                  errorIf e "Unable to read incoming body.";;
                  writeErrorResponse w (toAPIErrorCode e) path
              | None =>
                  match xml_Unmarshal buffer with
                  | inr e =>
                      errorIf e "Unable to parse notification configuration XML.";;
                      writeErrorResponse w ErrMalformedXML path
                  | inl notificationCfg =>
                      let s3Error := validateNotificationConfig notificationCfg in
                      if negb (isErrNone s3Error)
                      then writeErrorResponse w s3Error path
                      else
                        err ← PutBucketNotificationConfig bucket
                                (Some notificationCfg) objectAPI;
                        match err with
                        | Some e => writeErrorResponse w (toAPIErrorCode e) path
                        | None => writeSuccessResponse w None
                        end
                  end
              end
        end
  end.

(** ** Vocabulary of the further properties *)

(** The object layer accepts its next [n] operations. *)
Definition storageAccepts (n : nat) (w : World) : Prop :=
  Forall (λ o, o = None) (take n (storageFaults w)).

(** The connection accepts every coming write. *)
Definition clientListens (w : World) : Prop :=
  Forall (λ o, o = None) (writeFaults w).

(** [json.Marshal] accepts every one-key ["Records"] map. *)
Definition recordsMarshal : Prop :=
  ∀ v, ∃ b, json_Marshal {[ "Records" := v ]} = inl b.

(** What the [select] of one iteration hands to the rest of the iteration:
    the value to frame, the instant at which it is framed, and the channel
    that is left. *)
Definition selectOutcome (now : Z) (ch : chan)
    : option (list NotificationEvent) * Z * chan :=
  match selectCase now (chanSends ch) with
  | SelEvents events at_ rest => (events, at_, mkChan (chanID ch) rest)
  | SelTimeout => (None, (now + globalSNSConnAlive)%Z, ch)
  end.

Definition msgWrite : string := "Unable to write notification to client.".

(** A response, as opposed to streamed data. *)
Definition isErrorResponse (x : wire) : bool :=
  match x with WError _ _ => true | _ => false end.

Definition isLockCall (c : Call) : bool :=
  match c with CLock _ _ _ | CUnlock _ _ _ => true | _ => false end.

(** Two worlds with the same object layer, notifier, locks and counters:
    everything but the connection, the clock and the call log. *)
Definition sameBackend (w w' : World) : Prop :=
  objNotification w' = objNotification w
  ∧ objListener w' = objListener w
  ∧ objBuckets w' = objBuckets w
  ∧ storageFaults w' = storageFaults w
  ∧ notifierNotification w' = notifierNotification w
  ∧ notifierListeners w' = notifierListeners w
  ∧ notifierChans w' = notifierChans w
  ∧ nsLocks w' = nsLocks w
  ∧ opsCounter w' = opsCounter w
  ∧ chanCounter w' = chanCounter w.

(** ** Properties *)

(** *** Running the monad *)

Lemma bind_run {A B} (m : M A) (k : A → M B) (w : World) :
  (m ≫= k) w = k (m w).1 (m w).2.
Proof. unfold mbind, M_bind. by destruct (m w). Qed.

Lemma newCalls_app (w w' : World) (l : list Call) :
  calls w' = calls w ++ l → newCalls w w' = l.
Proof. intros H. unfold newCalls. by rewrite H, drop_app_length. Qed.

Lemma newlySent_app (w w' : World) (l : list wire) :
  sent w' = sent w ++ l → newlySent w w' = l.
Proof. intros H. unfold newlySent. by rewrite H, drop_app_length. Qed.

(** *** The removal loop *)

Lemma removeLoop_absent listenerCfgs arn k rest :
  Forall (λ c, arnOf c ≠ arn) rest →
  removeLoop listenerCfgs arn k rest = None.
Proof.
  intros H. revert k. induction H as [|c rest Hc _ IH]; intros k; simpl; [done|].
  rewrite bool_decide_eq_false_2; [apply IH | exact Hc].
Qed.

Lemma removeLoop_first visited pre x post arn :
  Forall (λ c, arnOf c ≠ arn) pre →
  arnOf x = arn →
  removeLoop (visited ++ pre ++ x :: post) arn (length visited) (pre ++ x :: post)
  = Some (visited ++ pre ++ post).
Proof.
  intros Hpre Hx. revert visited.
  induction Hpre as [|c pre Hc _ IH]; intros visited; simpl.
  - rewrite bool_decide_eq_true_2; [|exact Hx].
    rewrite take_app_length.
    replace (S (length visited)) with (length (visited ++ [x]))
      by (rewrite length_app; simpl; lia).
    replace (visited ++ x :: post) with ((visited ++ [x]) ++ post)
      by (by rewrite <- app_assoc).
    by rewrite drop_app_length.
  - rewrite bool_decide_eq_false_2; [|exact Hc].
    specialize (IH (visited ++ [c])).
    rewrite length_app in IH. simpl in IH.
    replace (length visited + 1) with (S (length visited)) in IH by lia.
    rewrite <- !app_assoc in IH. simpl in IH. exact IH.
Qed.

Lemma removeLoop_found_inv listenerCfgs arn k rest updated :
  removeLoop listenerCfgs arn k rest = Some updated →
  ∃ pre x post, rest = pre ++ x :: post ∧ Forall (λ c, arnOf c ≠ arn) pre
    ∧ arnOf x = arn.
Proof.
  revert k. induction rest as [|c rest IH]; intros k; simpl; [done|].
  case_bool_decide as Hc.
  - intros _. exists [], c, rest. by repeat split.
  - intros H. destruct (IH _ H) as (pre & x & post & -> & Hpre & Hx).
    exists (c :: pre), x, post. repeat split; [|done]. by constructor.
Qed.

(** *** The configuration workflows, step by step *)

Ltac run :=
  unfold PutBucketNotificationConfig, AddBucketListenerConfig,
    RemoveBucketListenerConfig, defer, persistNotificationConfig,
    persistListenerConfig, S3PeersUpdateBucketNotification,
    S3PeersUpdateBucketListener, GetBucketListenerConfig, nsMutex_Lock,
    nsMutex_Unlock, getOpsID, errorIf, storageOutcome, call, modify, gets,
    mbind, M_bind, mret, M_ret, nextFault, guardedCalls, cachedListeners;
  simpl.

(** The log of [AddBucketListenerConfig] with a non-nil listener. *)
Lemma AddBucketListenerConfig_calls bucket lc objAPI w :
  calls (AddBucketListenerConfig bucket (Some lc) objAPI w).2 =
    calls w ++
      CGetBucketListenerConfig bucket :: CLock bucket "" (opsCounter w) ::
      guardedCalls msgAdd bucket (cachedListeners w bucket ++ [lc]) (nextFault w)
      ++ [CUnlock bucket "" (opsCounter w)].
Proof.
  run. destruct globalIsDistXL; simpl.
  - destruct (storageFaults w) as [|[e|] rest]; simpl;
      by rewrite <- !app_assoc.
  - by rewrite <- !app_assoc.
Qed.

(** The log of [RemoveBucketListenerConfig] when the loop finds a match. *)
Lemma RemoveBucketListenerConfig_calls bucket lc objAPI w updated :
  removeLoop (cachedListeners w bucket) (arnOf lc) 0 (cachedListeners w bucket)
    = Some updated →
  calls (RemoveBucketListenerConfig bucket (Some lc) objAPI w).2 =
    calls w ++
      CGetBucketListenerConfig bucket :: CLock bucket "" (opsCounter w) ::
      guardedCalls msgRemove bucket updated (nextFault w)
      ++ [CUnlock bucket "" (opsCounter w)].
Proof.
  unfold arnOf, cachedListeners. intros Hfound. run. rewrite Hfound. run.
  destruct globalIsDistXL; simpl.
  - destruct (storageFaults w) as [|[e|] rest]; simpl;
      by rewrite <- !app_assoc.
  - by rewrite <- !app_assoc.
Qed.

(** [RemoveBucketListenerConfig] when the loop finds nothing. *)
Lemma RemoveBucketListenerConfig_absent bucket lc objAPI w :
  Forall (λ c, arnOf c ≠ arnOf lc) (cachedListeners w bucket) →
  RemoveBucketListenerConfig bucket (Some lc) objAPI w =
    (Returned, set_calls (λ l, l ++ [CGetBucketListenerConfig bucket]) w).
Proof.
  intros Habs. run.
  by rewrite (removeLoop_absent _ _ _ _ Habs).
Qed.

(** The bucket lock is free again when a listener update has returned. *)
Lemma AddBucketListenerConfig_unlocked bucket lc objAPI w :
  nsLocks (AddBucketListenerConfig bucket (Some lc) objAPI w).2 !! (bucket, "")
    = None.
Proof.
  run. destruct globalIsDistXL; simpl.
  - destruct (storageFaults w) as [|[e|] rest]; simpl;
      by rewrite delete_insert_eq, lookup_delete_eq.
  - by rewrite delete_insert_eq, lookup_delete_eq.
Qed.

Lemma RemoveBucketListenerConfig_unlocked bucket lc objAPI w updated :
  removeLoop (cachedListeners w bucket) (arnOf lc) 0 (cachedListeners w bucket)
    = Some updated →
  nsLocks (RemoveBucketListenerConfig bucket (Some lc) objAPI w).2 !! (bucket, "")
    = None.
Proof.
  unfold arnOf, cachedListeners. intros Hfound. run. rewrite Hfound. run.
  destruct globalIsDistXL; simpl.
  - destruct (storageFaults w) as [|[e|] rest]; simpl;
      by rewrite delete_insert_eq, lookup_delete_eq.
  - by rewrite delete_insert_eq, lookup_delete_eq.
Qed.

(** C1 (as amended): [AddBucketListenerConfig] and
    [RemoveBucketListenerConfig] read the cached listener sequence and compute
    the modified sequence first, and only then acquire the bucket lock.  From
    there on the lock is held: the persist (multi-node deployments) and the
    peer broadcast happen between [Lock] and [Unlock], [Unlock] is the last
    call of the operation, and the lock is free when the operation has
    returned. *)
Theorem lock_after_read_held_through_broadcast
    (bucket : string) (lc : listenerConfig) (objAPI : ObjectLayer) (w : World) :
  (let w' := (AddBucketListenerConfig bucket (Some lc) objAPI w).2 in
   calls w' =
     calls w ++
       CGetBucketListenerConfig bucket :: CLock bucket "" (opsCounter w) ::
       guardedCalls msgAdd bucket (cachedListeners w bucket ++ [lc]) (nextFault w)
       ++ [CUnlock bucket "" (opsCounter w)]
   ∧ occursBefore (isRead bucket) (isLock bucket) (newCalls w w') = true
   ∧ nsLocks w' !! (bucket, "") = None)
  ∧ (∀ updated,
       removeLoop (cachedListeners w bucket) (arnOf lc) 0 (cachedListeners w bucket)
         = Some updated →
       let w' := (RemoveBucketListenerConfig bucket (Some lc) objAPI w).2 in
       calls w' =
         calls w ++
           CGetBucketListenerConfig bucket :: CLock bucket "" (opsCounter w) ::
           guardedCalls msgRemove bucket updated (nextFault w)
           ++ [CUnlock bucket "" (opsCounter w)]
       ∧ occursBefore (isRead bucket) (isLock bucket) (newCalls w w') = true
       ∧ nsLocks w' !! (bucket, "") = None).
Proof.
  split.
  - pose proof (AddBucketListenerConfig_calls bucket lc objAPI w) as Hc.
    lazy zeta. split; [exact Hc|]. split; [|apply AddBucketListenerConfig_unlocked].
    rewrite (newCalls_app _ _ _ Hc). unfold occursBefore. simpl.
    by rewrite !bool_decide_eq_true_2.
  - intros updated Hfound.
    pose proof (RemoveBucketListenerConfig_calls bucket lc objAPI w updated Hfound) as Hc.
    lazy zeta. split; [exact Hc|].
    split; [|by eapply RemoveBucketListenerConfig_unlocked].
    rewrite (newCalls_app _ _ _ Hc). unfold occursBefore. simpl.
    by rewrite !bool_decide_eq_true_2.
Qed.

(** C10: [PutBucketNotificationConfig] with a nil configuration returns
    [errInvalidArgument] at once and leaves the whole world as it was: no
    lock, no write to the durable store, no broadcast, no entry in the call
    log. *)
Theorem PutBucketNotificationConfig_nil
    (bucket : string) (objAPI : ObjectLayer) (w : World) :
  let res := PutBucketNotificationConfig bucket None objAPI w in
  res.1 = Some errInvalidArgument
  ∧ res.2 = w
  ∧ newCalls w res.2 = []
  ∧ nsLocks res.2 = nsLocks w
  ∧ objNotification res.2 = objNotification w
  ∧ notifierNotification res.2 = notifierNotification w.
Proof.
  lazy zeta. simpl. split_and!; try reflexivity.
  unfold newCalls. apply drop_all.
Qed.

(** *** What the removal loop computes *)

Lemma removeLoop_None_inv listenerCfgs arn k rest :
  removeLoop listenerCfgs arn k rest = None →
  Forall (λ c, arnOf c ≠ arn) rest.
Proof.
  revert k. induction rest as [|c rest IH]; intros k; simpl; [by constructor|].
  case_bool_decide as Hc; [done|].
  intros H. constructor; [exact Hc | by eapply IH].
Qed.

Lemma removeLoop_result listenerCfgs arn updated :
  removeLoop listenerCfgs arn 0 listenerCfgs = Some updated →
  ∃ pre x post, listenerCfgs = pre ++ x :: post
    ∧ Forall (λ c, arnOf c ≠ arn) pre ∧ arnOf x = arn ∧ updated = pre ++ post.
Proof.
  intros H.
  destruct (removeLoop_found_inv _ _ _ _ _ H) as (pre & x & post & Heq & Hpre & Hx).
  exists pre, x, post. repeat split; try done.
  subst listenerCfgs.
  pose proof (removeLoop_first [] pre x post arn Hpre Hx) as Hfirst.
  simpl in Hfirst. congruence.
Qed.

Lemma unique_arn_removed (pre post : list listenerConfig) (x : listenerConfig) :
  NoDup (arnOf <$> (pre ++ x :: post)) →
  Forall (λ c, arnOf c ≠ arnOf x) (pre ++ post).
Proof.
  rewrite fmap_app, fmap_cons. intros Hnd.
  apply NoDup_app in Hnd as (_ & Hdisj & Hnd).
  apply NoDup_cons in Hnd as [Hx _].
  apply Forall_app. split; apply Forall_forall; intros c Hc Heq.
  - apply (Hdisj (arnOf c)); [by apply list_elem_of_fmap_2|].
    rewrite Heq. by left.
  - apply Hx. rewrite <- Heq. by apply list_elem_of_fmap_2.
Qed.

(** The cache after a removal that found its listener and did not fail to
    persist. *)
Lemma RemoveBucketListenerConfig_cache bucket lc objAPI w updated :
  removeLoop (cachedListeners w bucket) (arnOf lc) 0 (cachedListeners w bucket)
    = Some updated →
  globalIsDistXL = false ∨ nextFault w = None →
  notifierListeners (RemoveBucketListenerConfig bucket (Some lc) objAPI w).2
    = <[bucket := updated]> (notifierListeners w).
Proof.
  unfold arnOf, cachedListeners. intros Hfound Hok. run. rewrite Hfound. run.
  destruct globalIsDistXL; simpl; [|done].
  destruct Hok as [?|Hok]; [done|]. unfold nextFault in Hok.
  destruct (storageFaults w) as [|[e|] rest]; simpl; done.
Qed.

(** C5: removing a listener whose [TopicARN] is absent from the cached
    sequence of the bucket is a no-op: [RemoveBucketListenerConfig] returns,
    and the world afterwards is the world before with the read of the cache in
    the call log, so no lock was taken, nothing was persisted and nothing was
    broadcast.  In particular, when the destination identifiers of the bucket
    are distinct and the first removal went through, removing the same
    listener a second time is that no-op. *)
Theorem remove_absent_listener_is_noop
    (bucket : string) (lc : listenerConfig) (objAPI : ObjectLayer) (w : World) :
  (Forall (λ c, arnOf c ≠ arnOf lc) (cachedListeners w bucket) →
   RemoveBucketListenerConfig bucket (Some lc) objAPI w =
     (Returned, set_calls (λ l, l ++ [CGetBucketListenerConfig bucket]) w))
  ∧ (NoDup (arnOf <$> cachedListeners w bucket) →
     globalIsDistXL = false ∨ nextFault w = None →
     let w1 := (RemoveBucketListenerConfig bucket (Some lc) objAPI w).2 in
     RemoveBucketListenerConfig bucket (Some lc) objAPI w1 =
       (Returned, set_calls (λ l, l ++ [CGetBucketListenerConfig bucket]) w1)).
Proof.
  split; [apply RemoveBucketListenerConfig_absent|].
  intros Hnd Hok w1. apply RemoveBucketListenerConfig_absent.
  destruct (removeLoop (cachedListeners w bucket) (arnOf lc) 0
              (cachedListeners w bucket)) as [updated|] eqn:Hloop.
  - pose proof (RemoveBucketListenerConfig_cache _ _ objAPI _ _ Hloop Hok) as Hcache.
    unfold cachedListeners at 1. subst w1. rewrite Hcache, lookup_insert_eq. simpl.
    destruct (removeLoop_result _ _ _ Hloop) as (pre & x & post & Heq & _ & Hx & ->).
    rewrite Heq in Hnd. rewrite <- Hx. by apply unique_arn_removed.
  - apply removeLoop_None_inv in Hloop.
    subst w1. rewrite (RemoveBucketListenerConfig_absent _ _ objAPI _ Hloop).
    exact Hloop.
Qed.

(** C6: when the cached sequence holds several entries with the [TopicARN]
    being removed, the loop of [RemoveBucketListenerConfig] drops the first of
    them and nothing else: with [pre] free of the identifier and [x] the first
    match, the updated sequence is [pre ++ post], whatever [post] holds, other
    matches included.  That sequence is what the operation persists and
    broadcasts, and it is the cached sequence afterwards unless the persist
    failed. *)
Theorem remove_drops_first_match_only
    (bucket : string) (lc : listenerConfig) (objAPI : ObjectLayer) (w : World)
    (pre post : list listenerConfig) (x : listenerConfig) :
  cachedListeners w bucket = pre ++ x :: post →
  Forall (λ c, arnOf c ≠ arnOf lc) pre →
  arnOf x = arnOf lc →
  removeLoop (pre ++ x :: post) (arnOf lc) 0 (pre ++ x :: post) = Some (pre ++ post)
  ∧ (let w' := (RemoveBucketListenerConfig bucket (Some lc) objAPI w).2 in
     calls w' =
       calls w ++
         CGetBucketListenerConfig bucket :: CLock bucket "" (opsCounter w) ::
         guardedCalls msgRemove bucket (pre ++ post) (nextFault w)
         ++ [CUnlock bucket "" (opsCounter w)]
     ∧ (globalIsDistXL = false ∨ nextFault w = None →
        cachedListeners w' bucket = pre ++ post)).
Proof.
  intros Hcached Hpre Hx.
  pose proof (removeLoop_first [] pre x post (arnOf lc) Hpre Hx) as Hloop.
  simpl in Hloop. split; [exact Hloop|]. lazy zeta.
  rewrite <- Hcached in Hloop. split.
  - by apply RemoveBucketListenerConfig_calls.
  - intros Hok. unfold cachedListeners at 1.
    rewrite (RemoveBucketListenerConfig_cache _ _ objAPI _ _ Hloop Hok).
    by rewrite lookup_insert_eq.
Qed.

(** *** Persistence and broadcast *)

Lemma PutBucketNotificationConfig_calls bucket cfg objAPI w :
  calls (PutBucketNotificationConfig bucket (Some cfg) objAPI w).2 =
    calls w ++
      CLock bucket "" (opsCounter w) :: putCalls bucket cfg (nextFault w)
      ++ [CUnlock bucket "" (opsCounter w)].
Proof.
  run. destruct (storageFaults w) as [|[e|] rest]; simpl;
    by rewrite <- !app_assoc.
Qed.

(** C2: when persisting fails inside [PutBucketNotificationConfig] or
    [AddBucketListenerConfig], the operation returns an error (the wrapped
    error for the former, the error itself for the latter), no peer broadcast
    is among its calls and the cached configuration is untouched.  Conversely
    a run that broadcasts has no failed persist, and the successful persist
    comes before the broadcast (for [AddBucketListenerConfig], in the
    multi-node deployments where it persists at all). *)
Theorem persist_failure_returns_error_without_broadcast
    (bucket : string) (objAPI : ObjectLayer) (w : World) :
  (∀ cfg e, nextFault w = Some e →
     let res := PutBucketNotificationConfig bucket (Some cfg) objAPI w in
     res.1 = Some (errPersistNotification cfg e)
     ∧ existsb isBroadcast (newCalls w res.2) = false
     ∧ notifierNotification res.2 = notifierNotification w)
  ∧ (∀ lc e, globalIsDistXL = true → nextFault w = Some e →
     let res := AddBucketListenerConfig bucket (Some lc) objAPI w in
     res.1 = Some e
     ∧ existsb isBroadcast (newCalls w res.2) = false
     ∧ notifierListeners res.2 = notifierListeners w)
  ∧ (∀ cfg,
     let res := PutBucketNotificationConfig bucket (Some cfg) objAPI w in
     existsb isBroadcast (newCalls w res.2) = true →
     res.1 = None
     ∧ existsb isPersistFailed (newCalls w res.2) = false
     ∧ occursBefore isPersistOk isBroadcast (newCalls w res.2) = true)
  ∧ (∀ lc,
     let res := AddBucketListenerConfig bucket (Some lc) objAPI w in
     existsb isBroadcast (newCalls w res.2) = true →
     res.1 = None
     ∧ existsb isPersistFailed (newCalls w res.2) = false
     ∧ (globalIsDistXL = true →
        occursBefore isPersistOk isBroadcast (newCalls w res.2) = true)).
Proof.
  split; [|split; [|split]].
  - intros cfg e Hfail. lazy zeta.
    rewrite (newCalls_app _ _ _ (PutBucketNotificationConfig_calls _ _ _ _)).
    rewrite Hfail. unfold nextFault in Hfail.
    destruct (storageFaults w) as [|o rest] eqn:Hs; [done|]. subst o.
    run. rewrite Hs. simpl. by repeat split.
  - intros lc e Hdist Hfail. lazy zeta.
    rewrite (newCalls_app _ _ _ (AddBucketListenerConfig_calls _ _ _ _)).
    unfold guardedCalls. rewrite Hdist, Hfail. unfold nextFault in Hfail.
    destruct (storageFaults w) as [|o rest] eqn:Hs; [done|]. subst o.
    run. rewrite Hdist. simpl. rewrite Hs. simpl. by repeat split.
  - intros cfg. lazy zeta.
    rewrite (newCalls_app _ _ _ (PutBucketNotificationConfig_calls _ _ _ _)).
    unfold nextFault.
    destruct (storageFaults w) as [|[e'|] rest] eqn:Hs; run; rewrite Hs; simpl;
      try done; by repeat split.
  - intros lc. lazy zeta.
    rewrite (newCalls_app _ _ _ (AddBucketListenerConfig_calls _ _ _ _)).
    unfold guardedCalls, nextFault.
    destruct globalIsDistXL eqn:Hdist.
    + destruct (storageFaults w) as [|[e'|] rest] eqn:Hs; run; rewrite ?Hdist;
        simpl; rewrite Hs; simpl; try done; by repeat split.
    + run. rewrite Hdist. simpl. by repeat split.
Qed.

(** C7: in a single-node deployment ([globalIsDistXL] false) adding or
    removing a bucket listener does not touch the durable store:
    [persistListenerConfig] is not among the calls, the stored objects and the
    fault schedule of the object layer are what they were, and the only update
    is the peer broadcast of the new sequence, which replaces the cached
    sequence of the bucket. *)
Theorem single_node_skips_durable_store
    (bucket : string) (lcfg : option listenerConfig) (objAPI : ObjectLayer)
    (w : World) :
  globalIsDistXL = false →
  (let w' := (AddBucketListenerConfig bucket lcfg objAPI w).2 in
   objListener w' = objListener w
   ∧ objNotification w' = objNotification w
   ∧ storageFaults w' = storageFaults w
   ∧ existsb isPersist (newCalls w w') = false
   ∧ (∀ lc, lcfg = Some lc →
      List.filter isBroadcast (newCalls w w') =
        [CUpdateBucketListener bucket (cachedListeners w bucket ++ [lc])]
      ∧ notifierListeners w' =
          <[bucket := cachedListeners w bucket ++ [lc]]> (notifierListeners w)))
  ∧ (let w' := (RemoveBucketListenerConfig bucket lcfg objAPI w).2 in
     objListener w' = objListener w
     ∧ objNotification w' = objNotification w
     ∧ storageFaults w' = storageFaults w
     ∧ existsb isPersist (newCalls w w') = false
     ∧ (∀ lc updated, lcfg = Some lc →
        removeLoop (cachedListeners w bucket) (arnOf lc) 0
          (cachedListeners w bucket) = Some updated →
        List.filter isBroadcast (newCalls w w') =
          [CUpdateBucketListener bucket updated]
        ∧ notifierListeners w' = <[bucket := updated]> (notifierListeners w))).
Proof.
  intros Hsingle. split; lazy zeta.
  - destruct lcfg as [lc|].
    + rewrite (newCalls_app _ _ _ (AddBucketListenerConfig_calls _ _ _ _)).
      run. rewrite Hsingle. simpl. split_and!; try done.
      intros lc0 [= <-]. by split.
    + simpl. unfold newCalls. rewrite drop_all. by split_and!.
  - destruct lcfg as [lc|].
    + destruct (removeLoop (cachedListeners w bucket) (arnOf lc) 0
                  (cachedListeners w bucket)) as [updated|] eqn:Hloop.
      * rewrite (newCalls_app _ _ _
                   (RemoveBucketListenerConfig_calls _ _ objAPI _ _ Hloop)).
        rewrite (RemoveBucketListenerConfig_cache _ _ objAPI _ _ Hloop
                   (or_introl Hsingle)).
        unfold guardedCalls. rewrite Hsingle.
        revert Hloop. unfold arnOf, cachedListeners. intros Hloop.
        run. rewrite Hloop. run. rewrite Hsingle. simpl.
        split_and!; try done. intros lc0 updated0 [= <-] Hu.
        replace updated0 with updated
          by (unfold arnOf, cachedListeners in *; simpl in *; congruence).
        by split.
      * pose proof (removeLoop_None_inv _ _ _ _ Hloop) as Habs.
        rewrite (RemoveBucketListenerConfig_absent _ _ objAPI _ Habs). simpl.
        unfold newCalls. simpl. rewrite drop_app_length. simpl.
        split_and!; try done. intros lc0 updated0 [= <-] Hu. congruence.
    + run. destruct (default [] (notifierListeners w !! bucket)); simpl.
      all: unfold newCalls; simpl; rewrite drop_app_length; simpl.
      all: by split_and!.
Qed.

(** *** The read handler *)

(** With nothing stored and the object layer answering, the load reports
    [errNoSuchNotifications]. *)
Lemma loadNotificationConfig_absent bucket objAPI st :
  objNotification st !! bucket = None →
  nextFault st = None →
  (loadNotificationConfig bucket objAPI st).1 = (None, Some errNoSuchNotifications).
Proof.
  unfold nextFault. intros Hnone Hok.
  unfold loadNotificationConfig, storageOutcome, call, modify, gets,
    mbind, M_bind, mret, M_ret. simpl.
  destruct (storageFaults st) as [|o rest]; simpl in *.
  - by rewrite Hnone.
  - subst o. simpl. by rewrite Hnone.
Qed.

(** [loadNotificationConfig] sends nothing to the client and logs its own
    call only. *)
Lemma loadNotificationConfig_sent bucket objAPI st :
  sent (loadNotificationConfig bucket objAPI st).2 = sent st
  ∧ calls (loadNotificationConfig bucket objAPI st).2
    = calls st ++ [CLoadNotificationConfig bucket].
Proof.
  unfold loadNotificationConfig, storageOutcome, call, modify, gets,
    mbind, M_bind, mret, M_ret. simpl.
  destruct (storageFaults st) as [|[e|] rest]; simpl; try done.
  all: by destruct (objNotification st !! bucket).
Qed.

(** C3: when [loadNotificationConfig] reports [errNoSuchNotifications] for the
    bucket of the request, [GetBucketNotificationHandler] (server initialised,
    request authorised) surfaces no error: its whole answer is one success
    response, whose body is the XML of the empty notification configuration,
    and nothing is logged besides the load itself. *)
Theorem GetBucketNotificationHandler_absent_is_empty
    (api : objectAPIHandlers) (objAPI : ObjectLayer) (w : ResponseWriter)
    (r : Request) (st : World) (body : bytes) :
  ObjectAPI api = Some objAPI →
  checkAuth r = ErrNone →
  (loadNotificationConfig (bucketOf r) objAPI st).1.2 = Some errNoSuchNotifications →
  xml_Marshal (Some zeroNotificationConfig) = inl body →
  sent (GetBucketNotificationHandler api w r st).2
    = sent st ++ [WSuccess (Some body)]
  ∧ calls (GetBucketNotificationHandler api w r st).2
    = calls st ++ [CLoadNotificationConfig (bucketOf r)].
Proof.
  intros Hapi Hauth Hload Hxml.
  unfold GetBucketNotificationHandler. rewrite Hapi, Hauth. simpl.
  rewrite bind_run.
  pose proof (loadNotificationConfig_sent (bucketOf r) objAPI st)
    as [Hsent Hcalls].
  destruct (loadNotificationConfig (bucketOf r) objAPI st) as [[nConfig err] st1].
  simpl in *. subst err. simpl. rewrite Hxml.
  unfold writeSuccessResponse, modify. simpl. by rewrite Hsent, Hcalls.
Qed.

(** *** The streaming loop *)

(** What one call of [writeNotification] does to the connection. *)
Lemma writeNotification_effect w notification st :
  let res := writeNotification w notification st in
  clock res.2 = clock st ∧ calls res.2 = calls st ∧
  ((res.1 ≠ None ∧ sent res.2 = sent st)
   ∨ (res.1 ≠ None ∧ sent res.2 = sent st ++ [WFlush])
   ∨ (∃ m b, notification = Some m ∧ json_Marshal m = inl b ∧ res.1 = None
        ∧ (∃ rw, w = Some rw)
        ∧ (writeFaults st = [] ∨ ∃ rest, writeFaults st = None :: rest)
        ∧ sent res.2 = sent st ++ [WChunk (b +:+ crlf); WFlush])).
Proof.
  lazy zeta. unfold writeNotification.
  destruct w as [rw|]; [|by split_and!; try left].
  destruct notification as [m|]; [|by split_and!; try left].
  destruct (json_Marshal m) as [b|e] eqn:Hjson; [|by split_and!; try left].
  unfold Write, Flush, modify, mbind, M_bind, mret, M_ret.
  destruct (writeFaults st) as [|[e|] rest] eqn:Hf; simpl.
  - split_and!; try done. right; right. exists m, b.
    rewrite <- app_assoc. split_and!; eauto.
  - split_and!; try done. right; left. by split.
  - split_and!; try done. right; right. exists m, b.
    rewrite <- app_assoc. split_and!; eauto.
Qed.

Lemma streamWire_mono sends sends' x :
  sends' ⊆ sends → streamWire sends' x → streamWire sends x.
Proof.
  intros Hsub. destruct x; simpl; try done.
  intros (v & [Hv|[t Ht]] & Hframe); exists v; (split; [|done]).
  - by left.
  - right. exists t. by apply Hsub.
Qed.

Lemma selectCase_events now sends events at_ rest :
  selectCase now sends = SelEvents events at_ rest →
  ∃ t, sends = (t, events) :: rest.
Proof.
  unfold selectCase. destruct sends as [|[t ev] sends']; [done|].
  repeat case_match; try done; intros [= -> <- ->]; by exists t.
Qed.

(** The loop only appends to what the client received, and what it appends
    are flushes and framed units. *)
Lemma sendBucketNotification_sent fuel w ch st :
  ∃ new, sent (sendBucketNotification fuel w ch st).2 = sent st ++ new
    ∧ Forall (streamWire (chanSends ch)) new.
Proof.
  revert ch st. induction fuel as [|fuel IH]; intros ch st.
  - exists []. simpl. by rewrite app_nil_r.
  - simpl. unfold gets at 1. rewrite bind_run. simpl.
    destruct (selectCase (clock st) (chanSends ch)) as [events at_ rest|] eqn:Hsel.
    + apply selectCase_events in Hsel as [t Hsends].
      unfold modify at 1. rewrite !bind_run. simpl.
      set (st1 := set_clock (λ _, at_) st).
      pose proof (writeNotification_effect w (Some {["Records" := events]}) st1)
        as (_ & _ & Hw).
      destruct (writeNotification w (Some {["Records" := events]}) st1)
        as [err st2]. simpl in *.
      destruct Hw as [[Herr Hs]|[[Herr Hs]|(m & b & [= <-] & Hjson & -> & _ & _ & Hs)]].
      * destruct err as [e|]; [|done]. unfold errorIf, call, modify. simpl.
        exists []. rewrite app_nil_r. by split.
      * destruct err as [e|]; [|done]. unfold errorIf, call, modify. simpl.
        exists [WFlush]. split; [done|]. by repeat constructor.
      * destruct (IH (mkChan (chanID ch) rest) st2) as (new & Hnew & Hall).
        exists ([WChunk (b +:+ crlf); WFlush] ++ new).
        rewrite Hnew, Hs, <- app_assoc. split; [done|].
        apply Forall_app. split.
        -- repeat constructor. exists events. split; [|by exists b].
           right. exists t. rewrite Hsends. by left.
        -- eapply Forall_impl; [exact Hall|]. intros x.
           apply streamWire_mono. simpl. rewrite Hsends.
           intros y Hy. by right.
    + unfold modify at 1. rewrite !bind_run. simpl.
      set (st1 := set_clock (λ _, (clock st + globalSNSConnAlive)%Z) st).
      pose proof (writeNotification_effect w (Some dummyEvents) st1)
        as (_ & _ & Hw).
      destruct (writeNotification w (Some dummyEvents) st1) as [err st2].
      simpl in *.
      destruct Hw as [[Herr Hs]|[[Herr Hs]|(m & b & [= <-] & Hjson & -> & _ & _ & Hs)]].
      * destruct err as [e|]; [|done]. unfold errorIf, call, modify. simpl.
        exists []. rewrite app_nil_r. by split.
      * destruct err as [e|]; [|done]. unfold errorIf, call, modify. simpl.
        exists [WFlush]. split; [done|]. by repeat constructor.
      * destruct (IH ch st2) as (new & Hnew & Hall).
        exists ([WChunk (b +:+ crlf); WFlush] ++ new).
        rewrite Hnew, Hs, <- app_assoc. split; [done|].
        apply Forall_app. split; [|done].
        repeat constructor. exists None. split; [by left | by exists b].
Qed.

(** A write that goes through: the writer is there, the map marshals, the
    connection takes the bytes. *)
Lemma writeNotification_ok rw m b st :
  json_Marshal m = inl b →
  (writeFaults st = [] ∨ ∃ rest, writeFaults st = None :: rest) →
  let res := writeNotification (Some rw) (Some m) st in
  res.1 = None ∧ sent res.2 = sent st ++ [WChunk (b +:+ crlf); WFlush].
Proof.
  intros Hjson Hok. lazy zeta. unfold writeNotification. rewrite Hjson.
  unfold Write, Flush, modify, mbind, M_bind, mret, M_ret.
  destruct Hok as [->|[rest ->]]; simpl; by rewrite <- app_assoc.
Qed.

Lemma selectCase_idle now sends :
  Forall (λ s, (now + globalSNSConnAlive < s.1)%Z) sends →
  selectCase now sends = SelTimeout.
Proof.
  unfold selectCase. destruct sends as [|[t ev] rest]; [done|].
  intros Hall. apply Forall_cons in Hall as [Ht _]. simpl in Ht.
  rewrite (proj2 (Z.ltb_ge _ _)) by lia.
  by rewrite (proj2 (Z.ltb_lt _ _)) by lia.
Qed.

(** C8 (as amended): every unit that reaches the streaming client ends with
    the two bytes CRLF, carriage return (13) then line feed (10).  For
    [writeNotification] the unit is the JSON of its argument followed by these
    two bytes.  [sendBucketNotification] only ever passes it a map with the
    single key ["Records"], whose value is the nil list, for a heartbeat, or a
    batch received from the channel, framed as it was offered: the loop does
    not look into the batch, so the list of a unit is non-empty whenever every
    batch offered on the channel is.  One iteration frames the batch it
    received when the channel delivered one, and the nil list when the
    keep-alive timer fired. *)
Theorem streamed_units_are_records_frames
    (fuel : nat) (w : option ResponseWriter) (ch : chan) (st : World) :
  let CRLF :=
    String (Ascii.ascii_of_nat 13) (String (Ascii.ascii_of_nat 10) EmptyString) in
  (∀ notification unit_,
     unit_ ∈ chunksOf (newlySent st (writeNotification w notification st).2) →
     ∃ m b, notification = Some m ∧ json_Marshal m = inl b
       ∧ unit_ = b +:+ CRLF)
  ∧ (∀ unit_,
       unit_ ∈ chunksOf (newlySent st (sendBucketNotification fuel w ch st).2) →
       ∃ v b, json_Marshal {[ "Records" := v ]} = inl b
         ∧ unit_ = b +:+ CRLF
         ∧ (v = None ∨ ∃ t, (t, v) ∈ chanSends ch)
         ∧ (Forall (λ s, ∃ e l, s.2 = Some (e :: l)) (chanSends ch) →
            v = None ∨ ∃ e l, v = Some (e :: l)))
  ∧ (∀ unit_,
       unit_ ∈ chunksOf (newlySent st (sendBucketNotification 1 w ch st).2) →
       ∃ b, unit_ = b +:+ CRLF
         ∧ match selectCase (clock st) (chanSends ch) with
           | SelEvents events _ _ =>
               json_Marshal {[ "Records" := events ]} = inl b
           | SelTimeout => json_Marshal {[ "Records" := None ]} = inl b
           end).
Proof.
  lazy zeta. split_and!.
  - intros notification unit_.
    pose proof (writeNotification_effect w notification st) as (_ & _ & Hw).
    lazy zeta in Hw.
    destruct Hw as [[_ Hs]|[[_ Hs]|(m & b & -> & Hjson & _ & _ & _ & Hs)]].
    + rewrite (newlySent_app st _ []) by (by rewrite app_nil_r).
      simpl. by intros ?%elem_of_nil.
    + rewrite (newlySent_app _ _ _ Hs). simpl. by intros ?%elem_of_nil.
    + rewrite (newlySent_app _ _ _ Hs). simpl.
      intros ->%list_elem_of_singleton. by exists m, b.
  - intros unit_.
    destruct (sendBucketNotification_sent fuel w ch st) as (new & Hnew & Hall).
    rewrite (newlySent_app _ _ _ Hnew). unfold chunksOf.
    intros (x & Hx & Hsome)%list_elem_of_omap.
    rewrite Forall_forall in Hall. specialize (Hall x Hx).
    destruct x; try done. injection Hsome as ->.
    destruct Hall as (v & Hfrom & b & Hjson & Hunit).
    exists v, b. split_and!; [done | done | exact Hfrom |].
    intros Hfull. destruct Hfrom as [->|[t Ht]]; [by left|]. right.
    rewrite Forall_forall in Hfull. exact (Hfull _ Ht).
  - intros unit_. simpl. unfold gets at 1. rewrite bind_run. simpl.
    destruct (selectCase (clock st) (chanSends ch)) as [events at_ rest|];
      unfold modify at 1; rewrite !bind_run; simpl.
    + set (st1 := set_clock (λ _, at_) st).
      pose proof (writeNotification_effect w (Some {["Records" := events]}) st1)
        as (_ & _ & Hw).
      destruct (writeNotification w (Some {["Records" := events]}) st1)
        as [err st2].
      simpl in Hw.
      destruct Hw as [[Herr Hs]|[[Herr Hs]|(m & b & [= <-] & Hjson & -> & _ & _ & Hs)]].
      * destruct err as [e|]; [|done]. unfold errorIf, call, modify. simpl.
        rewrite (newlySent_app st _ [])
          by (simpl; rewrite Hs; simpl; by rewrite app_nil_r).
        simpl. by intros ?%elem_of_nil.
      * destruct err as [e|]; [|done]. unfold errorIf, call, modify. simpl.
        rewrite (newlySent_app st _ [WFlush]) by (simpl; by rewrite Hs).
        simpl. by intros ?%elem_of_nil.
      * simpl. rewrite (newlySent_app st _ _ Hs). simpl.
        intros ->%list_elem_of_singleton. by exists b.
    + set (st1 := set_clock (λ _, (clock st + globalSNSConnAlive)%Z) st).
      pose proof (writeNotification_effect w (Some dummyEvents) st1)
        as (_ & _ & Hw).
      destruct (writeNotification w (Some dummyEvents) st1) as [err st2].
      simpl in Hw.
      destruct Hw as [[Herr Hs]|[[Herr Hs]|(m & b & [= <-] & Hjson & -> & _ & _ & Hs)]].
      * destruct err as [e|]; [|done]. unfold errorIf, call, modify. simpl.
        rewrite (newlySent_app st _ [])
          by (simpl; rewrite Hs; simpl; by rewrite app_nil_r).
        simpl. by intros ?%elem_of_nil.
      * destruct err as [e|]; [|done]. unfold errorIf, call, modify. simpl.
        rewrite (newlySent_app st _ [WFlush]) by (simpl; by rewrite Hs).
        simpl. by intros ?%elem_of_nil.
      * simpl. rewrite (newlySent_app st _ _ Hs). simpl.
        intros ->%list_elem_of_singleton. by exists b.
Qed.

(** One iteration of the loop when the channel stays silent for the whole
    keep-alive interval. *)
Lemma sendBucketNotification_idle_step fuel w ch st :
  Forall (λ s, (clock st + globalSNSConnAlive < s.1)%Z) (chanSends ch) →
  sendBucketNotification (S fuel) w ch st =
    let res :=
      writeNotification w (Some dummyEvents)
        (set_clock (λ _, (clock st + globalSNSConnAlive)%Z) st) in
    match res.1 with
    | Some e =>
        (true,
         set_calls (λ l, l ++ [CErrorIf e "Unable to write notification to client."])
           res.2)
    | None => sendBucketNotification fuel w ch res.2
    end.
Proof.
  intros Hidle. simpl. unfold gets at 1. rewrite bind_run. simpl.
  rewrite (selectCase_idle _ _ Hidle).
  unfold modify at 1. rewrite !bind_run. simpl.
  destruct (writeNotification w (Some dummyEvents) _) as [[e|] st2]; done.
Qed.

(** C9: when no batch is offered on the channel within the keep-alive
    interval (every sender becomes ready later than the interval after the
    loop is entered), the first unit the loop writes is the empty-records
    frame of a heartbeat: the units it delivers are none at all, or start with
    that frame, so that any event frame comes after it.  And when the writer
    is there and the connection accepts the write, the heartbeat is
    delivered. *)
Theorem idle_listener_gets_heartbeat_first
    (fuel : nat) (w : option ResponseWriter) (ch : chan) (st : World) :
  Forall (λ s, (clock st + globalSNSConnAlive < s.1)%Z) (chanSends ch) →
  let units := chunksOf (newlySent st (sendBucketNotification fuel w ch st).2) in
  (units = [] ∨
   ∃ heartbeat rest, isFrameOf None heartbeat ∧ units = heartbeat :: rest)
  ∧ (∀ fuel' rw b,
       fuel = S fuel' → w = Some rw →
       json_Marshal dummyEvents = inl b →
       writeFaults st = [] ∨ (∃ rest, writeFaults st = None :: rest) →
       ∃ rest, units = (b +:+ crlf) :: rest).
Proof.
  intros Hidle units. subst units.
  destruct fuel as [|fuel].
  - simpl. unfold newlySent. rewrite drop_all. split; [by left|].
    by intros.
  - rewrite (sendBucketNotification_idle_step _ _ _ _ Hidle). lazy zeta.
    set (st1 := set_clock (λ _, (clock st + globalSNSConnAlive)%Z) st).
    pose proof (writeNotification_effect w (Some dummyEvents) st1)
      as (_ & _ & Hw).
    destruct (writeNotification w (Some dummyEvents) st1) as [err st2] eqn:Hrun.
    simpl in Hw |- *.
    assert (Hprogress : ∀ fuel' rw b,
              S fuel = S fuel' → w = Some rw →
              json_Marshal dummyEvents = inl b →
              writeFaults st = [] ∨ (∃ rest, writeFaults st = None :: rest) →
              err = None ∧ sent st2 = sent st ++ [WChunk (b +:+ crlf); WFlush]).
    { intros fuel' rw b _ -> Hjson Hfaults.
      pose proof (writeNotification_ok rw dummyEvents b st1 Hjson Hfaults) as Hok.
      lazy zeta in Hok. by rewrite Hrun in Hok. }
    destruct Hw as [[Herr Hs]|[[Herr Hs]|(m & b & [= <-] & Hjson & -> & _ & _ & Hs)]].
    + destruct err as [e|]; [|done].
      unfold newlySent. simpl. rewrite Hs, drop_all.
      split; [by left|]. intros fuel' rw b Hf Hw Hj Hfaults.
      by destruct (Hprogress fuel' rw b Hf Hw Hj Hfaults).
    + destruct err as [e|]; [|done].
      unfold newlySent. simpl. rewrite Hs, drop_app_length.
      split; [by left|]. intros fuel' rw b Hf Hw Hj Hfaults.
      by destruct (Hprogress fuel' rw b Hf Hw Hj Hfaults).
    + destruct (sendBucketNotification_sent fuel w ch st2) as (new & Hnew & _).
      rewrite Hs, <- app_assoc in Hnew.
      rewrite (newlySent_app _ _ _ Hnew). simpl. split.
      * right. exists (b +:+ crlf), (chunksOf new). split; [by exists b | done].
      * intros fuel' rw b' _ _ Hj _. exists (chunksOf new).
        rewrite Hjson in Hj. by injection Hj as ->.
Qed.

(** *** The listen handler *)

(** [AddBucketListenerConfig] with a non-nil listener fails exactly when the
    deployment is multi-node and the object layer refuses the persist. *)
Lemma AddBucketListenerConfig_fails_iff bucket lc objAPI st e :
  (AddBucketListenerConfig bucket (Some lc) objAPI st).1 = Some e ↔
  globalIsDistXL = true ∧ nextFault st = Some e.
Proof.
  unfold nextFault.
  destruct globalIsDistXL eqn:Hdist;
    destruct (storageFaults st) as [|[e'|] rest] eqn:Hs;
    run; rewrite ?Hdist; simpl; rewrite ?Hs; simpl;
    intuition congruence.
Qed.

(** C4: a listen request that passes validation and registers its delivery
    channel, and whose [AddBucketListenerConfig] then fails (the persist of a
    multi-node deployment is refused with [e]): the handler returns after
    sending the error response for [e] and nothing else, the deferred
    [RemoveListenerChan] and [close] have run, so the registry of channels is
    what it was before the request (no channel for the destination), and
    neither the cached nor the stored listener sequence has gained an
    entry. *)
Theorem listen_registration_failure_cleans_up
    (fuel : nat) (sends : list (Z * option (list NotificationEvent)))
    (api : objectAPIHandlers) (objAPI : ObjectLayer) (w : ResponseWriter)
    (r : Request) (st : World) (e : error) (rest : list (option error)) :
  globalIsDistXL = true →
  ObjectAPI api = Some objAPI →
  checkAuth r = ErrNone →
  validateFilterValues (prefixesOf r) = ErrNone →
  validateFilterValues (suffixesOf r) = ErrNone →
  firstInvalidEvent (eventsOf r) = None →
  bucketOf r ∈ objBuckets st →
  storageFaults st = None :: Some e :: rest →
  notifierChans st !! accountARNOf (clock st) = None →
  let res := ListenBucketNotificationHandler fuel sends api w r st in
  let arn := accountARNOf (clock st) in
  let lcfgs :=
    cachedListeners st (bucketOf r) ++
      [listenerConfigOf (clock st) (prefixesOf r) (suffixesOf r) (eventsOf r)] in
  res.1 = true
  ∧ sent res.2 = sent st ++ [WError (toAPIErrorCode e) (URLPath r)]
  ∧ notifierChans res.2 = notifierChans st
  ∧ notifierChans res.2 !! arn = None
  ∧ notifierListeners res.2 = notifierListeners st
  ∧ objListener res.2 = objListener st
  ∧ calls res.2 =
      calls st ++
        [CGetBucketInfo (bucketOf r);
         CAddListenerChan arn (chanCounter st) None;
         CGetBucketListenerConfig (bucketOf r);
         CLock (bucketOf r) "" (opsCounter st);
         CPersistListenerConfig (bucketOf r) lcfgs (Some e);
         CErrorIf e msgAdd;
         CUnlock (bucketOf r) "" (opsCounter st);
         CRemoveListenerChan arn;
         CCloseChan (chanCounter st)].
Proof.
  intros Hdist Hapi Hauth Hpre Hsuf Hev Hbucket Hfaults Hfree.
  unfold prefixesOf, suffixesOf, eventsOf in *.
  unfold ListenBucketNotificationHandler. rewrite Hapi, Hauth. simpl.
  destruct (getListenBucketNotificationResources (Query r))
    as [[prefixes suffixes] events]. simpl in *.
  rewrite Hpre, Hsuf, Hev. simpl.
  unfold GetBucketInfo, makeChan, deferExit, closeChan, AddListenerChan,
    RemoveListenerChan. run.
  rewrite Hfaults. simpl.
  rewrite (bool_decide_eq_true_2 _ Hbucket). simpl.
  rewrite Hfree. simpl. rewrite Hdist. simpl.
  rewrite <- !app_assoc. simpl.
  rewrite delete_insert_eq, (delete_id _ _ Hfree).
  by split_and!.
Qed.

(** ** Further properties *)

(** *** The object layer *)

Lemma storageAccepts_next n w : storageAccepts (S n) w → nextFault w = None.
Proof.
  unfold storageAccepts, nextFault.
  destruct (storageFaults w) as [|o rest]; [done|].
  simpl. by intros [-> _]%Forall_cons.
Qed.

Lemma storageAccepts_tail n w o rest :
  storageFaults w = o :: rest → storageAccepts (S n) w →
  o = None ∧ Forall (λ o, o = None) (take n rest).
Proof.
  unfold storageAccepts. intros ->. simpl. by intros ?%Forall_cons.
Qed.

(** X1: [PutBucketNotificationConfig] with a configuration the object layer
    accepts returns no error; afterwards the stored and the cached
    configuration of the bucket are the new one, whatever was there before,
    those of every other bucket are untouched, the bucket lock is free, and
    the calls were lock, persist, broadcast, unlock in that order. *)
Theorem PutBucketNotificationConfig_overwrites
    (bucket : string) (cfg : notificationConfig) (objAPI : ObjectLayer)
    (w : World) :
  nextFault w = None →
  let res := PutBucketNotificationConfig bucket (Some cfg) objAPI w in
  res.1 = None
  ∧ objNotification res.2 = <[bucket := cfg]> (objNotification w)
  ∧ notifierNotification res.2 = <[bucket := cfg]> (notifierNotification w)
  ∧ nsLocks res.2 !! (bucket, "") = None
  ∧ calls res.2 =
      calls w ++
        [CLock bucket "" (opsCounter w);
         CPersistNotificationConfig bucket cfg None;
         CUpdateBucketNotification bucket cfg;
         CUnlock bucket "" (opsCounter w)].
Proof.
  unfold nextFault. intros Hok. lazy zeta.
  destruct (storageFaults w) as [|o rest] eqn:Hs; [|subst o];
    run; rewrite Hs; simpl; rewrite <- !app_assoc; simpl;
    rewrite lookup_delete_eq; by split_and!.
Qed.

(** X2: round trip.  After [PutBucketNotificationConfig] has stored [cfg],
    [GetBucketNotificationHandler] on the same bucket answers with one success
    response whose body is the XML of [cfg]. *)
Theorem put_then_get_returns_configuration
    (api : objectAPIHandlers) (objAPI : ObjectLayer) (w : ResponseWriter)
    (r : Request) (cfg : notificationConfig) (st : World) (body : bytes) :
  ObjectAPI api = Some objAPI →
  checkAuth r = ErrNone →
  storageAccepts 2 st →
  xml_Marshal (Some cfg) = inl body →
  let st1 := (PutBucketNotificationConfig (bucketOf r) (Some cfg) objAPI st).2 in
  sent (GetBucketNotificationHandler api w r st1).2
    = sent st ++ [WSuccess (Some body)].
Proof.
  intros Hapi Hauth Hok Hxml. lazy zeta.
  unfold GetBucketNotificationHandler. rewrite Hapi, Hauth. simpl.
  unfold loadNotificationConfig.
  destruct (storageFaults st) as [|o rest] eqn:Hs.
  - run. rewrite Hs. simpl. rewrite ?Hs. simpl.
      rewrite lookup_insert_eq. simpl. by rewrite Hxml.
  - destruct (storageAccepts_tail _ _ _ _ Hs Hok) as [-> Hrest].
    destruct rest as [|o' rest'].
    + run. rewrite Hs. simpl. rewrite ?Hs. simpl.
      rewrite lookup_insert_eq. simpl. by rewrite Hxml.
    + apply Forall_cons in Hrest as [-> _].
      run. rewrite Hs. simpl. rewrite ?Hs. simpl.
      rewrite lookup_insert_eq. simpl. by rewrite Hxml.
Qed.

(** *** Listener sequences *)

(** X3: what the removal loop keeps.  It finds a match exactly when some
    entry carries the identifier; the updated sequence is then one entry
    shorter, and its entries with any other identifier are those of the
    original sequence, in the same order. *)
Theorem removeLoop_keeps_other_listeners
    (listenerCfgs : list listenerConfig) (arn : string) :
  (removeLoop listenerCfgs arn 0 listenerCfgs = None
     ↔ Forall (λ c, arnOf c ≠ arn) listenerCfgs)
  ∧ (∀ updated,
       removeLoop listenerCfgs arn 0 listenerCfgs = Some updated →
       length listenerCfgs = S (length updated)
       ∧ List.filter (λ c, negb (bool_decide (arnOf c = arn))) updated
         = List.filter (λ c, negb (bool_decide (arnOf c = arn))) listenerCfgs).
Proof.
  split.
  - split; [apply removeLoop_None_inv | apply removeLoop_absent].
  - intros updated Hloop.
    destruct (removeLoop_result _ _ _ Hloop) as (pre & x & post & -> & _ & Hx & ->).
    split.
    + rewrite !length_app. simpl. lia.
    + rewrite !List.filter_app. simpl.
      by rewrite (bool_decide_eq_true_2 _ Hx).
Qed.

(** The cache after [AddBucketListenerConfig] when nothing fails. *)
Lemma AddBucketListenerConfig_ok bucket lc objAPI w :
  globalIsDistXL = false ∨ nextFault w = None →
  let res := AddBucketListenerConfig bucket (Some lc) objAPI w in
  res.1 = None
  ∧ notifierListeners res.2
    = <[bucket := cachedListeners w bucket ++ [lc]]> (notifierListeners w)
  ∧ storageFaults res.2
    = (if globalIsDistXL then tail (storageFaults w) else storageFaults w)
  ∧ notifierChans res.2 = notifierChans w
  ∧ sent res.2 = sent w
  ∧ writeFaults res.2 = writeFaults w
  ∧ clock res.2 = clock w
  ∧ (if globalIsDistXL
     then objListener res.2
          = <[bucket := cachedListeners w bucket ++ [lc]]> (objListener w)
     else objListener res.2 = objListener w).
Proof.
  intros Hok. lazy zeta. destruct globalIsDistXL eqn:Hdist.
  - destruct Hok as [?|Hok]; [done|]. unfold nextFault in Hok.
    destruct (storageFaults w) as [|o rest] eqn:Hs; [|subst o];
      run; rewrite Hdist; simpl; rewrite Hs; simpl; by split_and!.
  - run. rewrite Hdist. simpl. by split_and!.
Qed.

(** X4: registering a listener and removing it again.  When the identifier of
    [lc] is new to the bucket and no persist is refused,
    [AddBucketListenerConfig] followed by [RemoveBucketListenerConfig] gives
    back the cached listener sequence the bucket had, and in a multi-node
    deployment the stored sequence is that sequence too. *)
Theorem add_then_remove_restores_listeners
    (bucket : string) (lc : listenerConfig) (objAPI : ObjectLayer) (w : World) :
  Forall (λ c, arnOf c ≠ arnOf lc) (cachedListeners w bucket) →
  globalIsDistXL = false ∨ storageAccepts 2 w →
  let w1 := (AddBucketListenerConfig bucket (Some lc) objAPI w).2 in
  let w2 := (RemoveBucketListenerConfig bucket (Some lc) objAPI w1).2 in
  (AddBucketListenerConfig bucket (Some lc) objAPI w).1 = None
  ∧ cachedListeners w1 bucket = cachedListeners w bucket ++ [lc]
  ∧ cachedListeners w2 bucket = cachedListeners w bucket
  ∧ (globalIsDistXL = true →
     objListener w2 !! bucket = Some (cachedListeners w bucket)).
Proof.
  intros Hnew Hok w1 w2.
  assert (Hok1 : globalIsDistXL = false ∨ nextFault w = None).
  { destruct Hok as [?|Hok]; [by left | right]. by eapply storageAccepts_next. }
  destruct (AddBucketListenerConfig_ok bucket lc objAPI w Hok1)
    as (Hres & Hcache & Hfaults & _ & _ & _ & _ & Hstore).
  fold w1 in Hcache, Hfaults, Hstore.
  assert (Hc1 : cachedListeners w1 bucket = cachedListeners w bucket ++ [lc]).
  { unfold cachedListeners at 1. by rewrite Hcache, lookup_insert_eq. }
  assert (Hloop : removeLoop (cachedListeners w1 bucket) (arnOf lc) 0
                    (cachedListeners w1 bucket) = Some (cachedListeners w bucket)).
  { rewrite Hc1.
    pose proof (removeLoop_first [] (cachedListeners w bucket) lc [] (arnOf lc)
                  Hnew eq_refl) as H.
    simpl in H. by rewrite app_nil_r in H. }
  assert (Hok2 : globalIsDistXL = false ∨ nextFault w1 = None).
  { destruct Hok as [?|Hok]; [by left | right].
    unfold nextFault. rewrite Hfaults. destruct globalIsDistXL.
    - unfold storageAccepts in Hok.
      destruct (storageFaults w) as [|o [|o' rest]]; simpl in *; try done.
      by apply Forall_cons in Hok as [_ [-> _]%Forall_cons].
    - by apply (storageAccepts_next 1). }
  split_and!; [done | done | |].
  - unfold cachedListeners at 1. subst w2.
    rewrite (RemoveBucketListenerConfig_cache _ _ objAPI _ _ Hloop Hok2).
    by rewrite lookup_insert_eq.
  - intros Hdist. subst w2. revert Hloop Hok2.
    unfold arnOf, cachedListeners. intros Hloop Hok2.
    destruct Hok2 as [?|Hok2]; [congruence|]. unfold nextFault in Hok2.
    run. rewrite Hloop. run. rewrite Hdist. simpl.
    destruct (storageFaults w1) as [|o rest] eqn:Hs; [|subst o]; simpl;
      by rewrite lookup_insert_eq.
Qed.

(** X5: a removal whose persist is refused.  In a multi-node deployment, when
    the listener is found and the object layer refuses the persist,
    [RemoveBucketListenerConfig] still returns normally: the error only goes
    to the log, the peers are not told, the stored sequences are what they
    were and the bucket lock is free again. *)
Theorem remove_swallows_persist_failure
    (bucket : string) (lc : listenerConfig) (objAPI : ObjectLayer) (w : World)
    (updated : list listenerConfig) (e : error) :
  globalIsDistXL = true →
  removeLoop (cachedListeners w bucket) (arnOf lc) 0 (cachedListeners w bucket)
    = Some updated →
  nextFault w = Some e →
  let res := RemoveBucketListenerConfig bucket (Some lc) objAPI w in
  res.1 = Returned
  ∧ existsb isBroadcast (newCalls w res.2) = false
  ∧ In (CErrorIf e msgRemove) (newCalls w res.2)
  ∧ objListener res.2 = objListener w
  ∧ nsLocks res.2 !! (bucket, "") = None.
Proof.
  intros Hdist Hloop Hfail. lazy zeta.
  rewrite (newCalls_app _ _ _
             (RemoveBucketListenerConfig_calls _ _ objAPI _ _ Hloop)).
  unfold guardedCalls. rewrite Hdist, Hfail.
  split_and!.
  - revert Hloop. unfold arnOf, cachedListeners. intros Hloop.
    unfold nextFault in Hfail.
    destruct (storageFaults w) as [|o rest] eqn:Hs; [done|]. subst o.
    run. rewrite Hloop. run. rewrite Hdist. simpl. by rewrite Hs.
  - done.
  - simpl. do 3 right. by left.
  - revert Hloop. unfold arnOf, cachedListeners. intros Hloop.
    unfold nextFault in Hfail.
    destruct (storageFaults w) as [|o rest] eqn:Hs; [done|]. subst o.
    run. rewrite Hloop. run. rewrite Hdist. simpl. by rewrite Hs.
  - by eapply RemoveBucketListenerConfig_unlocked.
Qed.

(** *** Streaming *)

Lemma sameBackend_refl w : sameBackend w w.
Proof. by repeat split. Qed.

Lemma sameBackend_trans w1 w2 w3 :
  sameBackend w1 w2 → sameBackend w2 w3 → sameBackend w1 w3.
Proof.
  unfold sameBackend. intros H12 H23. destruct_and!. split_and!; congruence.
Qed.

(** [writeNotification] on a map that marshals, by the answer of the
    connection. *)
Lemma writeNotification_run rw m b st :
  json_Marshal m = inl b →
  writeNotification (Some rw) (Some m) st =
    match writeFaults st with
    | Some e :: rest =>
        (Some e,
         set_sent (λ l, l ++ [WFlush]) (set_writeFaults (λ _, rest) st))
    | None :: rest =>
        (None,
         set_sent (λ l, l ++ [WFlush])
           (set_sent (λ l, l ++ [WChunk (b +:+ crlf)])
              (set_writeFaults (λ _, rest) st)))
    | [] =>
        (None,
         set_sent (λ l, l ++ [WFlush])
           (set_sent (λ l, l ++ [WChunk (b +:+ crlf)]) st))
    end.
Proof.
  intros Hjson. unfold writeNotification. rewrite Hjson.
  unfold Write, Flush, modify, mbind, M_bind, mret, M_ret.
  by destruct (writeFaults st) as [|[e|] rest].
Qed.

Lemma writeNotification_backend w notification st :
  sameBackend st (writeNotification w notification st).2.
Proof.
  unfold writeNotification.
  destruct w as [rw|]; [|apply sameBackend_refl].
  destruct notification as [m|]; [|apply sameBackend_refl].
  destruct (json_Marshal m) as [b|e]; [|apply sameBackend_refl].
  unfold Write, Flush, modify, mbind, M_bind, mret, M_ret.
  destruct (writeFaults st) as [|[e|] rest]; by repeat split.
Qed.

(** X6: [writeNotification] reports success exactly when it delivered a unit.
    With a nil result the client received one chunk, the JSON of the map
    followed by CRLF; with an error (nil writer, nil map, a map that does not
    marshal, a refused write) it received no chunk at all. *)
Theorem writeNotification_delivers_iff_nil
    (w : option ResponseWriter)
    (notification : option (gmap string (option (list NotificationEvent))))
    (st : World) :
  let res := writeNotification w notification st in
  (res.1 = None →
   ∃ m b, notification = Some m ∧ json_Marshal m = inl b
     ∧ chunksOf (newlySent st res.2) = [b +:+ crlf])
  ∧ (res.1 ≠ None → chunksOf (newlySent st res.2) = []).
Proof.
  pose proof (writeNotification_effect w notification st) as (_ & _ & Hw).
  lazy zeta in Hw |- *.
  destruct Hw as [[Herr Hs]|[[Herr Hs]|(m & b & -> & Hjson & Hnil & _ & _ & Hs)]].
  - split; [done|]. intros _. unfold newlySent. by rewrite Hs, drop_all.
  - split; [done|]. intros _. by rewrite (newlySent_app _ _ _ Hs).
  - split; [|done]. intros _. exists m, b.
    by rewrite (newlySent_app _ _ _ Hs).
Qed.

(** One iteration of [sendBucketNotification]. *)
Lemma sendBucketNotification_step fuel w ch st :
  sendBucketNotification (S fuel) w ch st =
    let '(v, at_, ch') := selectOutcome (clock st) ch in
    let res :=
      writeNotification w (Some {[ "Records" := v ]})
        (set_clock (λ _, at_) st) in
    match res.1 with
    | Some e => (true, set_calls (λ l, l ++ [CErrorIf e msgWrite]) res.2)
    | None => sendBucketNotification fuel w ch' res.2
    end.
Proof.
  simpl. unfold gets at 1. rewrite bind_run. simpl. unfold selectOutcome.
  destruct (selectCase (clock st) (chanSends ch)) as [events at_ rest|];
    unfold modify at 1; rewrite !bind_run; simpl.
  - by destruct (writeNotification w _ _) as [[e|] st2].
  - unfold dummyEvents. by destruct (writeNotification w _ _) as [[e|] st2].
Qed.

(** X7: the streaming loop changes nothing but the connection, the clock and
    the log: the stored objects, the caches, the channel registry, the locks
    and the counters are the same after any number of iterations. *)
Theorem sendBucketNotification_keeps_backend
    (fuel : nat) (w : option ResponseWriter) (ch : chan) (st : World) :
  sameBackend st (sendBucketNotification fuel w ch st).2.
Proof.
  revert ch st. induction fuel as [|fuel IH]; intros ch st.
  - apply sameBackend_refl.
  - rewrite sendBucketNotification_step.
    destruct (selectOutcome (clock st) ch) as [[v at_] ch'].
    pose proof (writeNotification_backend w (Some {[ "Records" := v ]})
                  (set_clock (λ _, at_) st)) as Hb.
    lazy zeta.
    destruct (writeNotification w _ _) as [[e|] st2]; simpl in *.
    + exact Hb.
    + eapply sameBackend_trans; [exact Hb | apply IH].
Qed.

(** X8: the loop ends at the first refused write.  When the connection takes
    [n] writes and refuses the next one with [e], a loop with a writer, a
    marshalling [json.Marshal] and more than [n] iterations to go returns:
    the client has received exactly [n] units, the error has been logged once
    and nothing else was logged. *)
Theorem sendBucketNotification_stops_at_first_write_error
    (n fuel : nat) (rw : ResponseWriter) (ch : chan) (st : World)
    (e : error) (rest : list (option error)) :
  recordsMarshal →
  writeFaults st = replicate n None ++ Some e :: rest →
  n < fuel →
  let res := sendBucketNotification fuel (Some rw) ch st in
  res.1 = true
  ∧ length (chunksOf (newlySent st res.2)) = n
  ∧ writeFaults res.2 = rest
  ∧ calls res.2 = calls st ++ [CErrorIf e msgWrite].
Proof.
  intros Hjson. revert fuel ch st.
  induction n as [|n IH]; intros fuel ch st Hfaults Hfuel;
    (destruct fuel as [|fuel]; [lia|]); lazy zeta;
    rewrite sendBucketNotification_step;
    destruct (selectOutcome (clock st) ch) as [[v at_] ch'];
    destruct (Hjson v) as [b Hb]; lazy zeta;
    rewrite (writeNotification_run _ _ _ _ Hb); simpl; rewrite Hfaults; simpl.
  - unfold newlySent. simpl. rewrite drop_app_length. by split_and!.
  - set (st2 := set_sent _ _).
    specialize (IH fuel ch' st2 eq_refl ltac:(lia)). lazy zeta in IH.
    destruct IH as (Hret & Hlen & Hf & Hcalls).
    destruct (sendBucketNotification_sent fuel (Some rw) ch' st2)
      as (new & Hnew & _).
    rewrite (newlySent_app _ _ _ Hnew) in Hlen.
    assert (Hsent : sent (sendBucketNotification fuel (Some rw) ch' st2).2
                    = sent st ++ [WChunk (b +:+ crlf); WFlush] ++ new).
    { rewrite Hnew. subst st2. simpl. by rewrite <- !app_assoc. }
    rewrite (newlySent_app _ _ _ Hsent). simpl.
    split_and!; [done | by rewrite Hlen | done | done].
Qed.

(** X9: the loop goes on while the client listens.  With a writer, a
    marshalling [json.Marshal] and a connection that accepts every write, the
    loop has not returned after any number of iterations, it has delivered
    exactly one unit per iteration, and it has logged nothing. *)
Theorem sendBucketNotification_runs_while_client_listens
    (fuel : nat) (rw : ResponseWriter) (ch : chan) (st : World) :
  recordsMarshal →
  clientListens st →
  let res := sendBucketNotification fuel (Some rw) ch st in
  res.1 = false
  ∧ length (chunksOf (newlySent st res.2)) = fuel
  ∧ calls res.2 = calls st.
Proof.
  intros Hjson. revert ch st.
  induction fuel as [|fuel IH]; intros ch st Hlistens; lazy zeta.
  - simpl. unfold newlySent. by rewrite drop_all.
  - rewrite sendBucketNotification_step.
    destruct (selectOutcome (clock st) ch) as [[v at_] ch'].
    destruct (Hjson v) as [b Hb]. lazy zeta.
    rewrite (writeNotification_run _ _ _ _ Hb). simpl.
    unfold clientListens in Hlistens.
    destruct (writeFaults st) as [|o rest] eqn:Hf; simpl.
    + set (st2 := set_sent _ _).
      assert (Hl2 : clientListens st2).
      { unfold clientListens. subst st2. simpl. by rewrite Hf. }
      destruct (IH ch' st2 Hl2) as (Hret & Hlen & Hcalls).
      destruct (sendBucketNotification_sent fuel (Some rw) ch' st2)
        as (new & Hnew & _).
      rewrite (newlySent_app _ _ _ Hnew) in Hlen.
      assert (Hsent : sent (sendBucketNotification fuel (Some rw) ch' st2).2
                      = sent st ++ [WChunk (b +:+ crlf); WFlush] ++ new).
      { rewrite Hnew. subst st2. simpl. by rewrite <- !app_assoc. }
      rewrite (newlySent_app _ _ _ Hsent). simpl.
      split_and!; [done | by rewrite Hlen | done].
    + apply Forall_cons in Hlistens as [-> Hrest]. simpl.
      set (st2 := set_sent _ _).
      assert (Hl2 : clientListens st2).
      { unfold clientListens. by subst st2. }
      destruct (IH ch' st2 Hl2) as (Hret & Hlen & Hcalls).
      destruct (sendBucketNotification_sent fuel (Some rw) ch' st2)
        as (new & Hnew & _).
      rewrite (newlySent_app _ _ _ Hnew) in Hlen.
      assert (Hsent : sent (sendBucketNotification fuel (Some rw) ch' st2).2
                      = sent st ++ [WChunk (b +:+ crlf); WFlush] ++ new).
      { rewrite Hnew. subst st2. simpl. by rewrite <- !app_assoc. }
      rewrite (newlySent_app _ _ _ Hsent). simpl.
      split_and!; [done | by rewrite Hlen | done].
Qed.

Lemma selectOutcome_ready now ch t events rest :
  chanSends ch = (t, events) :: rest →
  (t ≤ now)%Z → (0 < globalSNSConnAlive)%Z →
  selectOutcome now ch = (events, now, mkChan (chanID ch) rest).
Proof.
  intros Hsends Ht Halive. unfold selectOutcome, selectCase. rewrite Hsends.
  rewrite (proj2 (Z.ltb_lt _ _)) by lia. by rewrite Z.max_l by lia.
Qed.

(** X10: a backlog is delivered in order.  When the batches at the head of the
    channel are all waiting already, the keep-alive interval is positive and
    the client listens, the first [fuel] units the loop delivers frame the
    first [fuel] batches of the channel, one each and in the order they were
    offered, with no heartbeat in between. *)
Theorem sendBucketNotification_delivers_backlog_in_order
    (fuel : nat) (rw : ResponseWriter) (ch : chan) (st : World) :
  recordsMarshal →
  clientListens st →
  (0 < globalSNSConnAlive)%Z →
  Forall (λ s, (s.1 ≤ clock st)%Z) (take fuel (chanSends ch)) →
  (fuel ≤ length (chanSends ch))%nat →
  Forall2 (λ s unit_, isFrameOf s.2 unit_)
    (take fuel (chanSends ch))
    (chunksOf (newlySent st (sendBucketNotification fuel (Some rw) ch st).2)).
Proof.
  intros Hjson Hlistens Halive. revert ch st Hlistens.
  induction fuel as [|fuel IH]; intros ch st Hlistens Hready Hlen.
  - simpl. unfold newlySent. rewrite drop_all. constructor.
  - destruct (chanSends ch) as [|[t events] rest] eqn:Hsends; [simpl in Hlen; lia|].
    simpl in Hready, Hlen. apply Forall_cons in Hready as [Ht Hready].
    simpl in Ht.
    rewrite sendBucketNotification_step.
    rewrite (selectOutcome_ready _ _ _ _ _ Hsends Ht Halive).
    destruct (Hjson events) as [b Hb]. lazy zeta.
    rewrite (writeNotification_run _ _ _ _ Hb). simpl.
    unfold clientListens in Hlistens.
    assert (Hstep : ∀ st2,
              clientListens st2 → clock st2 = clock st →
              sent st2 = sent st ++ [WChunk (b +:+ crlf); WFlush] →
              Forall2 (λ s unit_, isFrameOf s.2 unit_)
                ((t, events) :: take fuel rest)
                (chunksOf (newlySent st
                   (sendBucketNotification fuel (Some rw)
                      (mkChan (chanID ch) rest) st2).2))).
    { intros st2 Hl2 Hclock Hsent2.
      specialize (IH (mkChan (chanID ch) rest) st2 Hl2). simpl in IH.
      rewrite Hclock in IH. specialize (IH Hready ltac:(lia)).
      destruct (sendBucketNotification_sent fuel (Some rw)
                  (mkChan (chanID ch) rest) st2) as (new & Hnew & _).
      rewrite (newlySent_app _ _ _ Hnew) in IH.
      rewrite Hsent2, <- app_assoc in Hnew.
      rewrite (newlySent_app _ _ _ Hnew). simpl.
      constructor; [by exists b | exact IH]. }
    destruct (writeFaults st) as [|o faults] eqn:Hf; simpl.
    + apply Hstep; [|done|simpl; by rewrite <- app_assoc].
      unfold clientListens. simpl. by rewrite Hf.
    + apply Forall_cons in Hlistens as [-> Hrest]. simpl.
      apply Hstep; [done | done | simpl; by rewrite <- app_assoc].
Qed.

(** *** Destination identifiers *)

Lemma string_app_cons a s t : String a s +:+ t = String a (s +:+ t).
Proof. reflexivity. Qed.

Lemma string_app_length s t :
  String.length (s +:+ t) = String.length s + String.length t.
Proof.
  induction s as [|a s IH]; [done|].
  rewrite string_app_cons. simpl. by rewrite IH.
Qed.

Lemma string_app_inv_tail s1 s2 t : s1 +:+ t = s2 +:+ t → s1 = s2.
Proof.
  revert s2. induction s1 as [|a s1 IH]; intros [|a' s2] Heq.
  - done.
  - apply (f_equal String.length) in Heq.
    rewrite !string_app_length in Heq. simpl in Heq. lia.
  - apply (f_equal String.length) in Heq.
    rewrite !string_app_length in Heq. simpl in Heq. lia.
  - rewrite !string_app_cons in Heq. injection Heq as -> Heq.
    f_equal. by apply IH.
Qed.

(** X11: listen requests served by one node at different instants get
    different destination identifiers: [accountARN] is made from the
    nanosecond instant of the request, and it determines that instant. *)
Theorem accountARN_differs_across_instants (now1 now2 : Z) :
  now1 ≠ now2 → accountARNOf now1 ≠ accountARNOf now2.
Proof.
  unfold accountARNOf, accountIDOf. intros Hne Heq. apply Hne.
  do 4 apply (inj (String.append _)) in Heq.
  apply string_app_inv_tail in Heq.
  by apply (inj pretty) in Heq.
Qed.

(** *** The listen handler, path by path *)

Lemma isErrNone_false c : isErrNone c = false ↔ c ≠ ErrNone.
Proof. by destruct c. Qed.

Lemma isErrNone_true c : isErrNone c = true ↔ c = ErrNone.
Proof. by destruct c. Qed.

Lemma firstInvalidEvent_None events :
  firstInvalidEvent events = None →
  Forall (λ event, checkEvent event = ErrNone) events.
Proof.
  induction events as [|event events IH]; simpl; [by constructor|].
  destruct (isErrNone (checkEvent event)) eqn:Hc; simpl; [|done].
  intros H. constructor; [by apply isErrNone_true | by apply IH].
Qed.

Lemma firstInvalidEvent_Some events code :
  firstInvalidEvent events = Some code → code ≠ ErrNone.
Proof.
  induction events as [|event events IH]; simpl; [done|].
  destruct (isErrNone (checkEvent event)) eqn:Hc; simpl; [exact IH|].
  intros [= <-]. by apply isErrNone_false.
Qed.

(** X12: a listen request that fails validation has no effect.  When the
    server is not initialised, the request is not authorised, a prefix or
    suffix value is invalid or an event name is not recognised, the handler
    returns after sending one error response: no channel is made, nothing is
    registered, persisted or logged, and the object layer is not asked. *)
Theorem listen_rejected_request_has_no_effect
    (fuel : nat) (sends : list (Z * option (list NotificationEvent)))
    (api : objectAPIHandlers) (w : ResponseWriter) (r : Request) (st : World) :
  ObjectAPI api = None
  ∨ checkAuth r ≠ ErrNone
  ∨ validateFilterValues (prefixesOf r) ≠ ErrNone
  ∨ validateFilterValues (suffixesOf r) ≠ ErrNone
  ∨ Exists (λ event, checkEvent event ≠ ErrNone) (eventsOf r) →
  ∃ code, code ≠ ErrNone
    ∧ ListenBucketNotificationHandler fuel sends api w r st
      = (true, set_sent (λ l, l ++ [WError code (URLPath r)]) st).
Proof.
  unfold prefixesOf, suffixesOf, eventsOf, ListenBucketNotificationHandler.
  intros Hrej.
  destruct (ObjectAPI api) as [objAPI|]; [|by exists ErrServerNotInitialized].
  destruct (isErrNone (checkAuth r)) eqn:Hauth; simpl;
    [|exists (checkAuth r); split; [by apply isErrNone_false | done]].
  destruct (getListenBucketNotificationResources (Query r))
    as [[prefixes suffixes] events]. simpl in Hrej.
  destruct (isErrNone (validateFilterValues prefixes)) eqn:Hpre; simpl;
    [|exists (validateFilterValues prefixes);
      split; [by apply isErrNone_false | done]].
  destruct (isErrNone (validateFilterValues suffixes)) eqn:Hsuf; simpl;
    [|exists (validateFilterValues suffixes);
      split; [by apply isErrNone_false | done]].
  destruct (firstInvalidEvent events) as [code|] eqn:Hev;
    [exists code; split; [by eapply firstInvalidEvent_Some | done]|].
  exfalso. apply firstInvalidEvent_None in Hev.
  apply isErrNone_true in Hauth, Hpre, Hsuf.
  destruct Hrej as [?|[?|[?|[?|Hex]]]]; try done.
  apply Exists_exists in Hex as (event & Hin & Hbad).
  rewrite Forall_forall in Hev. by apply Hbad, Hev.
Qed.

(** What [GetBucketInfo] does besides answering. *)
Lemma GetBucketInfo_effect objAPI bucket st :
  let res := GetBucketInfo objAPI bucket st in
  calls res.2 = calls st ++ [CGetBucketInfo bucket]
  ∧ sent res.2 = sent st
  ∧ notifierChans res.2 = notifierChans st
  ∧ notifierListeners res.2 = notifierListeners st
  ∧ objListener res.2 = objListener st
  ∧ objNotification res.2 = objNotification st
  ∧ notifierNotification res.2 = notifierNotification st
  ∧ chanCounter res.2 = chanCounter st
  ∧ nsLocks res.2 = nsLocks st.
Proof.
  lazy zeta. unfold GetBucketInfo. run.
  by destruct (storageFaults st) as [|[e|] rest].
Qed.

(** X13: a listen request on a bucket the object layer does not vouch for.
    When the request passes validation and [GetBucketInfo] answers with an
    error, the handler logs it, sends the error response for it and returns:
    no channel has been made and the registry and the listener sequences are
    untouched. *)
Theorem listen_unknown_bucket_registers_nothing
    (fuel : nat) (sends : list (Z * option (list NotificationEvent)))
    (api : objectAPIHandlers) (objAPI : ObjectLayer) (w : ResponseWriter)
    (r : Request) (st : World) (e : error) :
  ObjectAPI api = Some objAPI →
  checkAuth r = ErrNone →
  validateFilterValues (prefixesOf r) = ErrNone →
  validateFilterValues (suffixesOf r) = ErrNone →
  firstInvalidEvent (eventsOf r) = None →
  (GetBucketInfo objAPI (bucketOf r) st).1 = Some e →
  let res := ListenBucketNotificationHandler fuel sends api w r st in
  res.1 = true
  ∧ sent res.2 = sent st ++ [WError (toAPIErrorCode e) (URLPath r)]
  ∧ calls res.2 =
      calls st ++
        [CGetBucketInfo (bucketOf r); CErrorIf e "Unable to get bucket info."]
  ∧ chanCounter res.2 = chanCounter st
  ∧ notifierChans res.2 = notifierChans st
  ∧ notifierListeners res.2 = notifierListeners st
  ∧ objListener res.2 = objListener st.
Proof.
  intros Hapi Hauth Hpre Hsuf Hev Hinfo.
  unfold prefixesOf, suffixesOf, eventsOf in *.
  unfold ListenBucketNotificationHandler. rewrite Hapi, Hauth. simpl.
  destruct (getListenBucketNotificationResources (Query r))
    as [[prefixes suffixes] events]. simpl in *.
  rewrite Hpre, Hsuf, Hev. simpl. rewrite bind_run.
  pose proof (GetBucketInfo_effect objAPI (bucketOf r) st) as Heff.
  lazy zeta in Heff.
  destruct (GetBucketInfo objAPI (bucketOf r) st) as [err st1].
  simpl in *. subst err.
  destruct Heff as (Hcalls & Hsent & Hchans & Hcache & Hstore & _ & _ & Hctr & _).
  unfold errorIf, writeErrorResponse, call, modify, mbind, M_bind, mret, M_ret.
  simpl. split_and!; try done; try congruence.
  by rewrite Hcalls, <- app_assoc.
Qed.

(** X14: a listen request whose destination identifier is taken.  When the
    registry already holds a channel for the identifier, [AddListenerChan]
    fails and the handler answers with that error and closes its own channel;
    as the deferred [RemoveListenerChan] is registered only after a successful
    registration, the channel that was there stays registered, and no
    listener configuration is added. *)
Theorem listen_collision_keeps_registered_listener
    (fuel : nat) (sends : list (Z * option (list NotificationEvent)))
    (api : objectAPIHandlers) (objAPI : ObjectLayer) (w : ResponseWriter)
    (r : Request) (st : World) (taken : nat) :
  ObjectAPI api = Some objAPI →
  checkAuth r = ErrNone →
  validateFilterValues (prefixesOf r) = ErrNone →
  validateFilterValues (suffixesOf r) = ErrNone →
  firstInvalidEvent (eventsOf r) = None →
  bucketOf r ∈ objBuckets st →
  nextFault st = None →
  notifierChans st !! accountARNOf (clock st) = Some taken →
  let res := ListenBucketNotificationHandler fuel sends api w r st in
  res.1 = true
  ∧ sent res.2
    = sent st ++ [WError (toAPIErrorCode errListenerExists) (URLPath r)]
  ∧ notifierChans res.2 = notifierChans st
  ∧ notifierListeners res.2 = notifierListeners st
  ∧ objListener res.2 = objListener st
  ∧ calls res.2 =
      calls st ++
        [CGetBucketInfo (bucketOf r);
         CAddListenerChan (accountARNOf (clock st)) (chanCounter st)
           (Some errListenerExists);
         CErrorIf errListenerExists "Error adding a listener!";
         CCloseChan (chanCounter st)].
Proof.
  intros Hapi Hauth Hpre Hsuf Hev Hbucket Hok Htaken.
  unfold prefixesOf, suffixesOf, eventsOf, nextFault in *.
  unfold ListenBucketNotificationHandler. rewrite Hapi, Hauth. simpl.
  destruct (getListenBucketNotificationResources (Query r))
    as [[prefixes suffixes] events]. simpl in *.
  rewrite Hpre, Hsuf, Hev. simpl.
  unfold GetBucketInfo, makeChan, deferExit, closeChan, AddListenerChan,
    writeErrorResponse. run.
  destruct (storageFaults st) as [|o rest] eqn:Hs; [|subst o]; simpl;
    rewrite (bool_decide_eq_true_2 _ Hbucket); simpl;
    rewrite Htaken; simpl; rewrite <- !app_assoc; simpl; by split_and!.
Qed.

Lemma bind_intro {A B} (m : M A) (k : A → M B) st a st1 r :
  m st = (a, st1) → k a st1 = r → (m ≫= k) st = r.
Proof. intros Hm Hk. by rewrite bind_run, Hm. Qed.

Lemma deferExit_intro d body st st1 stF :
  body st = (true, st1) → (d st1).2 = stF →
  deferExit d body st = (true, stF).
Proof.
  intros Hbody Hd. unfold deferExit. rewrite bind_run, Hbody. simpl.
  rewrite bind_run. by rewrite Hd.
Qed.

Lemma GetBucketInfo_ok objAPI bucket st :
  nextFault st = None → bucket ∈ objBuckets st →
  (GetBucketInfo objAPI bucket st).1 = None.
Proof.
  unfold nextFault. intros Hok Hbucket. unfold GetBucketInfo. run.
  destruct (storageFaults st) as [|o rest]; [|subst o]; simpl;
    by rewrite (bool_decide_eq_true_2 _ Hbucket).
Qed.

Lemma GetBucketInfo_faults objAPI bucket st :
  storageFaults (GetBucketInfo objAPI bucket st).2 = tail (storageFaults st)
  ∧ writeFaults (GetBucketInfo objAPI bucket st).2 = writeFaults st
  ∧ clock (GetBucketInfo objAPI bucket st).2 = clock st
  ∧ objBuckets (GetBucketInfo objAPI bucket st).2 = objBuckets st
  ∧ opsCounter (GetBucketInfo objAPI bucket st).2 = opsCounter st.
Proof.
  unfold GetBucketInfo. run.
  destruct (storageFaults st) as [|[e|] rest] eqn:Hs; simpl; rewrite ?Hs;
    by split_and!.
Qed.

Lemma AddListenerChan_ok arn ch st :
  notifierChans st !! arn = None →
  AddListenerChan arn ch st =
    (None,
     set_notifierChans (insert arn (chanID ch))
       (set_calls (λ l, l ++ [CAddListenerChan arn (chanID ch) None]) st)).
Proof.
  intros Hfree. unfold AddListenerChan. run. by rewrite Hfree.
Qed.

(** What [RemoveBucketListenerConfig] never touches. *)
Lemma RemoveBucketListenerConfig_frame bucket lcfg objAPI st :
  let st' := (RemoveBucketListenerConfig bucket lcfg objAPI st).2 in
  notifierChans st' = notifierChans st
  ∧ sent st' = sent st
  ∧ writeFaults st' = writeFaults st
  ∧ chanCounter st' = chanCounter st
  ∧ clock st' = clock st
  ∧ objNotification st' = objNotification st
  ∧ notifierNotification st' = notifierNotification st.
Proof.
  lazy zeta. run. destruct lcfg as [lc|].
  - destruct (removeLoop _ _ _ _) as [updated|]; run; [|done].
    destruct globalIsDistXL; simpl; [|done].
    by destruct (storageFaults st) as [|[e|] rest].
  - by destruct (default [] (notifierListeners st !! bucket)).
Qed.

#[local] Opaque AddBucketListenerConfig RemoveBucketListenerConfig
  sendBucketNotification.

(** X15: a whole listening session.  A request that passes validation on an
    existing bucket, with a healthy object layer and a destination identifier
    that is new to the registry and to the bucket, streams until the client
    goes away: when the connection takes [n] writes and refuses the next, the
    handler returns having delivered exactly [n] units, and its deferred
    calls have undone the registration: the channel registry and the cached
    listener sequence of the bucket are what they were before the request,
    and the bucket lock is free. *)
Theorem listen_session_cleans_up_on_disconnect
    (fuel n : nat) (sends : list (Z * option (list NotificationEvent)))
    (api : objectAPIHandlers) (objAPI : ObjectLayer) (w : ResponseWriter)
    (r : Request) (st : World) (e : error) (rest : list (option error)) :
  ObjectAPI api = Some objAPI →
  checkAuth r = ErrNone →
  validateFilterValues (prefixesOf r) = ErrNone →
  validateFilterValues (suffixesOf r) = ErrNone →
  firstInvalidEvent (eventsOf r) = None →
  bucketOf r ∈ objBuckets st →
  storageFaults st = [] →
  notifierChans st !! accountARNOf (clock st) = None →
  Forall (λ c, arnOf c ≠ accountARNOf (clock st))
    (cachedListeners st (bucketOf r)) →
  recordsMarshal →
  writeFaults st = replicate n None ++ Some e :: rest →
  n < fuel →
  let res := ListenBucketNotificationHandler fuel sends api w r st in
  res.1 = true
  ∧ notifierChans res.2 = notifierChans st
  ∧ cachedListeners res.2 (bucketOf r) = cachedListeners st (bucketOf r)
  ∧ nsLocks res.2 !! (bucketOf r, "") = None
  ∧ length (chunksOf (newlySent st res.2)) = n.
Proof.
  intros Hapi Hauth Hpre Hsuf Hev Hbucket Hfaults Hfree Hfresh Hjson Hwrites Hfuel.
  unfold prefixesOf, suffixesOf, eventsOf in *.
  destruct (getListenBucketNotificationResources (Query r))
    as [[prefixes suffixes] events] eqn:Hres. simpl in *.
  set (lc := listenerConfigOf (clock st) prefixes suffixes events).
  set (arn := accountARNOf (clock st)) in *.
  set (bucket := bucketOf r) in *.
  set (ch := mkChan (chanCounter st) sends).
  (* the bucket lookup *)
  assert (Hok0 : nextFault st = None) by (unfold nextFault; by rewrite Hfaults).
  pose proof (GetBucketInfo_ok objAPI bucket st Hok0 Hbucket) as Hinfo.
  pose proof (GetBucketInfo_effect objAPI bucket st) as Heff0.
  pose proof (GetBucketInfo_faults objAPI bucket st) as Hfl0.
  lazy zeta in Heff0.
  destruct (GetBucketInfo objAPI bucket st) as [err st1] eqn:E1. simpl in *.
  subst err.
  destruct Heff0 as (_ & Hsent1 & Hchans1 & Hcache1 & _ & _ & _ & Hctr1 & _).
  destruct Hfl0 as (Hsf1 & Hwf1 & Hclock1 & _ & _).
  rewrite Hfaults in Hsf1. simpl in Hsf1.
  (* the registration of the channel *)
  set (st2 := set_chanCounter S st1).
  set (st3 := set_notifierChans (insert arn (chanCounter st))
                (set_calls (λ l, l ++ [CAddListenerChan arn (chanCounter st) None])
                   st2)).
  assert (E3 : AddListenerChan arn ch st2 = (None, st3)).
  { apply AddListenerChan_ok. subst st2. simpl. by rewrite Hchans1. }
  (* the listener configuration is added *)
  assert (Hok3 : globalIsDistXL = false ∨ nextFault st3 = None).
  { right. unfold nextFault. subst st3 st2. simpl. by rewrite Hsf1. }
  pose proof (AddBucketListenerConfig_ok bucket lc objAPI st3 Hok3) as Hadd.
  lazy zeta in Hadd.
  destruct (AddBucketListenerConfig bucket (Some lc) objAPI st3)
    as [r4 st4] eqn:E4.
  simpl in Hadd.
  destruct Hadd as (-> & Hcache4 & Hsf4 & Hchans4 & Hsent4 & Hwf4 & Hclock4 & _).
  (* streaming *)
  set (st5 := set_sent (λ l, l ++ [WHeaders]) st4).
  assert (Hwf5 : writeFaults st5 = replicate n None ++ Some e :: rest).
  { subst st5 st3 st2. simpl. by rewrite Hwf4, <- Hwrites. }
  pose proof (sendBucketNotification_stops_at_first_write_error n fuel w ch st5
                e rest Hjson Hwf5 Hfuel) as Hloop.
  pose proof (sendBucketNotification_keeps_backend fuel (Some w) ch st5) as Hback.
  pose proof (sendBucketNotification_sent fuel (Some w) ch st5) as (new & Hnew & _).
  lazy zeta in Hloop.
  destruct (sendBucketNotification fuel (Some w) ch st5) as [ret st6] eqn:E6.
  simpl in Hloop, Hback. cbn [snd] in Hnew.
  destruct Hloop as (-> & Hlen & _ & _).
  rewrite (newlySent_app st5 st6 new Hnew) in Hlen.
  destruct Hback as (_ & _ & _ & Hsf6 & _ & Hcache6 & Hchans6 & _).
  (* the deferred removal of the listener configuration *)
  assert (Hc6 : cachedListeners st6 bucket = cachedListeners st bucket ++ [lc]).
  { unfold cachedListeners at 1. rewrite Hcache6. subst st5. simpl.
    rewrite Hcache4, lookup_insert_eq.
    simpl. unfold cachedListeners. subst st3 st2. simpl. by rewrite Hcache1. }
  assert (Hfound : removeLoop (cachedListeners st6 bucket) (arnOf lc) 0
                     (cachedListeners st6 bucket)
                   = Some (cachedListeners st bucket)).
  { rewrite Hc6.
    pose proof (removeLoop_first [] (cachedListeners st bucket) lc [] (arnOf lc)
                  Hfresh eq_refl) as H.
    simpl in H. by rewrite app_nil_r in H. }
  assert (Hok6 : globalIsDistXL = false ∨ nextFault st6 = None).
  { right. unfold nextFault. rewrite Hsf6. subst st5. simpl. rewrite Hsf4.
    subst st3 st2. simpl. rewrite Hsf1. by destruct globalIsDistXL. }
  pose proof (RemoveBucketListenerConfig_cache bucket lc objAPI st6 _ Hfound Hok6)
    as Hcache7.
  pose proof (RemoveBucketListenerConfig_unlocked bucket lc objAPI st6 _ Hfound)
    as Hlock7.
  pose proof (RemoveBucketListenerConfig_frame bucket (Some lc) objAPI st6)
    as (Hchans7 & Hsent7 & _).
  destruct (RemoveBucketListenerConfig bucket (Some lc) objAPI st6)
    as [o st7] eqn:E7.
  simpl in Hcache7, Hlock7, Hchans7, Hsent7.
  (* the run of the handler *)
  set (stF := set_calls (λ l, l ++ [CCloseChan (chanCounter st)])
                (set_notifierChans (delete arn)
                   (set_calls (λ l, l ++ [CRemoveListenerChan arn]) st7))).
  assert (Hrun : ListenBucketNotificationHandler fuel sends api w r st
                 = (true, stF)).
  { unfold ListenBucketNotificationHandler. rewrite Hapi, Hauth, Hres. simpl.
    rewrite Hpre, Hsuf, Hev. simpl.
    eapply bind_intro; [exact E1|]. simpl.
    eapply bind_intro; [reflexivity|]. simpl.
    eapply bind_intro; [reflexivity|]. simpl.
    rewrite Hclock1, Hctr1. fold lc arn ch st2.
    eapply deferExit_intro; [|reflexivity].
    eapply bind_intro; [exact E3|]. simpl.
    eapply deferExit_intro; [|reflexivity].
    eapply bind_intro; [exact E4|]. simpl.
    eapply deferExit_intro.
    - eapply bind_intro; [reflexivity|]. exact E6.
    - rewrite bind_run. fold bucket. by rewrite E7. }
  rewrite Hrun. lazy zeta. simpl. split_and!.
  - done.
  - rewrite Hchans7, Hchans6. subst st5. simpl. rewrite Hchans4.
    subst st3 st2. simpl.
    rewrite delete_insert_eq, Hchans1. by apply delete_id.
  - unfold cachedListeners at 1. simpl. by rewrite Hcache7, lookup_insert_eq.
  - exact Hlock7.
  - unfold newlySent. simpl. rewrite Hsent7, Hnew. subst st5. simpl.
    rewrite Hsent4. subst st3 st2. simpl. rewrite Hsent1.
    rewrite <- app_assoc, drop_app_length. simpl. exact Hlen.
Qed.

#[local] Transparent AddBucketListenerConfig RemoveBucketListenerConfig
  sendBucketNotification.


(** *** The read and put handlers, on every path *)

Ltac answered :=
  split_and!; try done; eexists; (split; [reflexivity|]); simpl; try done.

(** X16: [GetBucketNotificationHandler] answers every request with exactly
    one response, an error or a success with a body, and it is a pure read:
    it never locks or unlocks, and the stored and cached configurations, the
    listener sequences and the locks are what they were. *)
Theorem GetBucketNotificationHandler_answers_once_and_reads_only
    (api : objectAPIHandlers) (w : ResponseWriter) (r : Request) (st : World) :
  let st' := (GetBucketNotificationHandler api w r st).2 in
  (∃ x, sent st' = sent st ++ [x]
     ∧ match x with
       | WError _ _ | WSuccess (Some _) => True
       | _ => False
       end)
  ∧ existsb isLockCall (newCalls st st') = false
  ∧ objNotification st' = objNotification st
  ∧ notifierNotification st' = notifierNotification st
  ∧ objListener st' = objListener st
  ∧ notifierListeners st' = notifierListeners st
  ∧ nsLocks st' = nsLocks st.
Proof.
  lazy zeta. unfold GetBucketNotificationHandler, newCalls.
  destruct (ObjectAPI api) as [objAPI|]; simpl;
    [|rewrite drop_all; answered].
  destruct (isErrNone (checkAuth r)); simpl;
    [|rewrite drop_all; answered].
  unfold loadNotificationConfig, writeErrorResponse, writeSuccessResponse. run.
  destruct (storageFaults st) as [|[e|] rest] eqn:Hs; simpl.
  - destruct (objNotification st !! bucketOf r) as [cfg|]; simpl.
    + destruct (xml_Marshal (Some cfg)) as [b|e]; simpl;
        rewrite <- ?app_assoc, drop_app_length; answered.
    + destruct (xml_Marshal (Some zeroNotificationConfig)) as [b|e]; simpl;
        rewrite <- ?app_assoc, drop_app_length; answered.
  - destruct (isNoSuchNotifications e); simpl.
    + destruct (xml_Marshal (Some zeroNotificationConfig)) as [b|e']; simpl;
        rewrite <- ?app_assoc, drop_app_length; answered.
    + rewrite <- ?app_assoc, drop_app_length; answered.
  - destruct (objNotification st !! bucketOf r) as [cfg|]; simpl.
    + destruct (xml_Marshal (Some cfg)) as [b|e]; simpl;
        rewrite <- ?app_assoc, drop_app_length; answered.
    + destruct (xml_Marshal (Some zeroNotificationConfig)) as [b|e]; simpl;
        rewrite <- ?app_assoc, drop_app_length; answered.
Qed.

(** What [PutBucketNotificationConfig] does to the configurations. *)
Lemma PutBucketNotificationConfig_effect bucket cfg objAPI st :
  let res := PutBucketNotificationConfig bucket (Some cfg) objAPI st in
  sent res.2 = sent st
  ∧ ((res.1 = None
      ∧ objNotification res.2 = <[bucket := cfg]> (objNotification st)
      ∧ notifierNotification res.2 = <[bucket := cfg]> (notifierNotification st))
     ∨ (res.1 ≠ None
        ∧ objNotification res.2 = objNotification st
        ∧ notifierNotification res.2 = notifierNotification st)).
Proof.
  lazy zeta.
  destruct (storageFaults st) as [|[e|] rest] eqn:Hs; run; rewrite Hs; simpl;
    (split; [done|]); [left | right | left]; by split_and!.
Qed.

#[local] Opaque PutBucketNotificationConfig GetBucketInfo.

(** X17: [PutBucketNotificationHandler] answers every request with exactly
    one response, and the notification configuration changes only with a
    success response: after an error response the stored and the cached
    configurations are what they were, and after the success response (which
    has no body) the request was authorised and declared its length or was
    chunked, its body was copied without error ([io.CopyN] of
    [ContentLength] bytes when the length is known, [io.Copy] otherwise), and
    the stored and the cached configurations both hold, for the bucket of the
    request, the configuration that [xml.Unmarshal] produced from the bytes
    copied and that [validateNotificationConfig] accepted. *)
Theorem PutBucketNotificationHandler_changes_configuration_only_on_success
    (api : objectAPIHandlers) (w : ResponseWriter) (r : PutRequest)
    (st : World) :
  let st' := (PutBucketNotificationHandler api w r st).2 in
  let body :=
    if (0 <=? ContentLength r)%Z
    then io_CopyN (RequestBody r) (ContentLength r)
    else io_Copy (RequestBody r) in
  ∃ x, sent st' = sent st ++ [x]
    ∧ match x with
      | WError _ _ =>
          objNotification st' = objNotification st
          ∧ notifierNotification st' = notifierNotification st
      | WSuccess None =>
          ∃ cfg,
            checkAuth (putRequest r) = ErrNone
            ∧ (contains (TransferEncoding r) "chunked" = true
               ∨ ContentLength r ≠ (-1)%Z)
            ∧ body.2 = None
            ∧ xml_Unmarshal body.1 = inl cfg
            ∧ validateNotificationConfig cfg = ErrNone
            ∧ objNotification st'
              = <[bucketOf (putRequest r) := cfg]> (objNotification st)
            ∧ notifierNotification st'
              = <[bucketOf (putRequest r) := cfg]> (notifierNotification st)
      | _ => False
      end.
Proof.
  lazy zeta. unfold PutBucketNotificationHandler.
  destruct (ObjectAPI api) as [objAPI|]; simpl; [|by eexists; split; [reflexivity|]].
  destruct (isErrNone (checkAuth (putRequest r))) eqn:Hauth; simpl;
    [|by eexists; split; [reflexivity|]].
  rewrite bind_run.
  pose proof (GetBucketInfo_effect objAPI (bucketOf (putRequest r)) st) as Heff.
  lazy zeta in Heff.
  destruct (GetBucketInfo objAPI (bucketOf (putRequest r)) st) as [err st1].
  simpl in Heff. destruct Heff as (_ & Hsent & _ & _ & _ & Hobj & Hcache & _).
  simpl.
  unfold errorIf, writeErrorResponse, writeSuccessResponse, call, modify.
  destruct err as [e|]; simpl.
  { rewrite Hsent, Hobj, Hcache. by eexists; split; [reflexivity|]. }
  destruct (negb (contains (TransferEncoding r) "chunked")
            && (ContentLength r =? -1)%Z) eqn:Hlength; simpl.
  { rewrite Hsent, Hobj, Hcache. by eexists; split; [reflexivity|]. }
  destruct (if (0 <=? ContentLength r)%Z
            then io_CopyN (RequestBody r) (ContentLength r)
            else io_Copy (RequestBody r)) as [buffer [e|]]; simpl.
  { rewrite Hsent, Hobj, Hcache. by eexists; split; [reflexivity|]. }
  destruct (xml_Unmarshal buffer) as [cfg|e] eqn:Hxml; simpl.
  2: { rewrite Hsent, Hobj, Hcache. by eexists; split; [reflexivity|]. }
  destruct (isErrNone (validateNotificationConfig cfg)) eqn:Hvalid; simpl.
  2: { rewrite Hsent, Hobj, Hcache. by eexists; split; [reflexivity|]. }
  rewrite bind_run.
  pose proof (PutBucketNotificationConfig_effect (bucketOf (putRequest r)) cfg
                objAPI st1) as Hput.
  lazy zeta in Hput.
  destruct (PutBucketNotificationConfig (bucketOf (putRequest r)) (Some cfg)
              objAPI st1) as [err st2].
  simpl in Hput. destruct Hput as [Hsent2 [(-> & Hobj2 & Hcache2)|(Herr & Hobj2 & Hcache2)]].
  - simpl. rewrite Hsent2, Hsent, Hobj2, Hcache2, Hobj, Hcache.
    eexists. split; [reflexivity|]. simpl. exists cfg.
    split_and!; try done.
    + by apply isErrNone_true.
    + apply andb_false_iff in Hlength as [Hchunked|Hknown].
      * left. by apply negb_false_iff.
      * right. by apply Z.eqb_neq.
    + by apply isErrNone_true.
  - destruct err as [e|]; [|done]. simpl.
    rewrite Hsent2, Hsent, Hobj2, Hcache2, Hobj, Hcache. by eexists; split; [reflexivity|].
Qed.

#[local] Transparent PutBucketNotificationConfig GetBucketInfo.

(** *** Heartbeats and running sessions *)

Lemma selectOutcome_silent now ch :
  chanSends ch = [] →
  selectOutcome now ch = (None, (now + globalSNSConnAlive)%Z, ch).
Proof. intros Hsends. unfold selectOutcome, selectCase. by rewrite Hsends. Qed.

(** X18: the cadence of heartbeats.  On a channel on which nothing is ever
    offered, with a client that listens, every iteration of the loop waits
    one keep-alive interval and delivers one empty-records frame: after
    [fuel] iterations the clock has advanced by [fuel] intervals and the
    client has received [fuel] heartbeats and nothing else. *)
Theorem sendBucketNotification_heartbeat_cadence
    (fuel : nat) (rw : ResponseWriter) (ch : chan) (st : World) :
  recordsMarshal →
  clientListens st →
  chanSends ch = [] →
  let res := sendBucketNotification fuel (Some rw) ch st in
  clock res.2 = (clock st + Z.of_nat fuel * globalSNSConnAlive)%Z
  ∧ length (chunksOf (newlySent st res.2)) = fuel
  ∧ Forall (isFrameOf None) (chunksOf (newlySent st res.2)).
Proof.
  intros Hjson Hlistens Hsilent. revert st Hlistens.
  induction fuel as [|fuel IH]; intros st Hlistens; lazy zeta.
  - simpl. unfold newlySent. rewrite drop_all. split_and!; [lia | done | done].
  - rewrite sendBucketNotification_step.
    rewrite (selectOutcome_silent _ _ Hsilent).
    destruct (Hjson None) as [b Hb]. lazy zeta.
    rewrite (writeNotification_run _ _ _ _ Hb). simpl.
    assert (Hstep : ∀ st2,
              clientListens st2 →
              clock st2 = (clock st + globalSNSConnAlive)%Z →
              sent st2 = sent st ++ [WChunk (b +:+ crlf); WFlush] →
              let res := sendBucketNotification fuel (Some rw) ch st2 in
              clock res.2
                = (clock st + Z.of_nat (S fuel) * globalSNSConnAlive)%Z
              ∧ length (chunksOf (newlySent st res.2)) = S fuel
              ∧ Forall (isFrameOf None) (chunksOf (newlySent st res.2))).
    { intros st2 Hl2 Hclock Hsent2. lazy zeta.
      destruct (IH st2 Hl2) as (Hc & Hlen & Hall).
      destruct (sendBucketNotification_sent fuel (Some rw) ch st2)
        as (new & Hnew & _).
      rewrite (newlySent_app _ _ _ Hnew) in Hlen, Hall.
      rewrite Hsent2, <- app_assoc in Hnew.
      rewrite (newlySent_app _ _ _ Hnew). simpl.
      split_and!; [rewrite Hc, Hclock; lia | by rewrite Hlen |].
      constructor; [by exists b | exact Hall]. }
    unfold clientListens in Hlistens.
    destruct (writeFaults st) as [|o faults] eqn:Hf; simpl.
    + apply Hstep; [|done|simpl; by rewrite <- app_assoc].
      unfold clientListens. simpl. by rewrite Hf.
    + apply Forall_cons in Hlistens as [-> Hrest]. simpl.
      apply Hstep; [done | done | simpl; by rewrite <- app_assoc].
Qed.


#[local] Opaque AddBucketListenerConfig sendBucketNotification.


#[local] Transparent AddBucketListenerConfig sendBucketNotification.

End handlers.

(** ** A sample deployment

    Concrete worlds on which the properties above are exercised: the
    notification configuration of a bucket is the list of its destination
    identifiers, an event is its name, and JSON is written out for maps of
    event lists. *)

Definition sampleConfig : Type := list string.
Definition sampleEvent : Type := string.

Definition quoted (s : string) : string :=
  String (Ascii.ascii_of_nat 34) s +:+ String (Ascii.ascii_of_nat 34) EmptyString.

Definition sampleJSONList (v : option (list sampleEvent)) : string :=
  match v with
  | None => "null"
  | Some l => "[" +:+ String.concat "," (quoted <$> l) +:+ "]"
  end.

Definition sampleJSON (m : gmap string (option (list sampleEvent)))
    : bytes + error sampleConfig :=
  inl ("{" +:+
       String.concat ","
         ((λ kv, quoted kv.1 +:+ ":" +:+ sampleJSONList kv.2) <$> map_to_list m)
       +:+ "}").

Definition sampleXML (c : option sampleConfig) : bytes + error sampleConfig :=
  match c with
  | Some [] | None => inl "<NotificationConfiguration></NotificationConfiguration>"
  | Some l =>
      inl ("<NotificationConfiguration>" +:+ String.concat "," l
           +:+ "</NotificationConfiguration>")
  end.

Definition sampleListener (arn target : string) : listenerConfig :=
  mkListenerConfig
    (mkTopicConfig arn
       (mkServiceConfig ["s3:ObjectCreated:*"]
          (mkKeyFilter [mkFilterRule "prefix" "img/"]) "sns-1"))
    target.

Definition lcA : listenerConfig := sampleListener "arn:minio:sns:us-east-1:1:listen-a" "node1:9000".
Definition lcB : listenerConfig := sampleListener "arn:minio:sns:us-east-1:2:listen-b" "node2:9000".
(** A second entry with the destination identifier of [lcA]. *)
Definition lcA' : listenerConfig := sampleListener "arn:minio:sns:us-east-1:1:listen-a" "node3:9000".

(** A healthy deployment with the bucket [photos] and nothing configured. *)
Definition world0 : World sampleConfig :=
  mkWorld sampleConfig ∅ ∅ {[ "photos" ]} [] ∅ ∅ ∅ ∅ 0 0 1000 [] [] [].

(** [photos] has the listeners [lcA] and [lcB]. *)
Definition worldAB : World sampleConfig :=
  set_notifierListeners sampleConfig (λ _, {[ "photos" := [lcA; lcB] ]}) world0.

(** [photos] has two entries with the identifier of [lcA] around [lcB]. *)
Definition worldABA : World sampleConfig :=
  set_notifierListeners sampleConfig (λ _, {[ "photos" := [lcB; lcA; lcB; lcA'] ]}) world0.

(** The object layer refuses its next operation. *)
Definition diskOffline : error sampleConfig := errObjectLayer sampleConfig "disk offline".
Definition worldDown : World sampleConfig :=
  set_storageFaults sampleConfig (λ _, [Some diskOffline]) world0.

(** The object layer answers once and then refuses. *)
Definition worldFailing : World sampleConfig :=
  set_storageFaults sampleConfig (λ _, [None; Some diskOffline]) world0.

(** C1, as stated, asks for the lock to be taken before the cached sequence
    is read. *)
Definition lockedBeforeRead (bucket : string) (new : list (Call sampleConfig))
    : bool :=
  occursBefore sampleConfig (isLock sampleConfig bucket)
    (isRead sampleConfig bucket) new.

(** A request on the bucket [photos], and the collaborators of the handlers
    in the sample deployment. *)
Definition sampleRequest : Request unit :=
  mkRequest unit "/photos" {[ "bucket" := "photos" ]} tt.
Definition sampleAPI : objectAPIHandlers := mkAPI (Some objectLayer).
Definition sampleAuth (r : Request unit) : APIErrorCode := ErrNone.
Definition sampleErrorCode (e : error sampleConfig) : APIErrorCode := ErrOther 500.
Definition sampleValidate (values : list string) : APIErrorCode := ErrNone.
Definition sampleCheckEvent (event : string) : APIErrorCode := ErrNone.
Definition sampleResources (q : unit) : list string * list string * list string :=
  (["img/"], [".png"], ["s3:ObjectCreated:*"]).
Definition emptyXML : bytes :=
  "<NotificationConfiguration></NotificationConfiguration>".

(** The listen handler of the sample deployment: a multi-node cluster whose
    keep-alive interval is 5000 ns. *)
Definition sampleListen (fuel : nat)
    (sends : list (Z * option (list sampleEvent))) (st : World sampleConfig)
    : bool * World sampleConfig :=
  ListenBucketNotificationHandler sampleConfig sampleEvent true unit sampleAuth
    sampleErrorCode sampleValidate sampleCheckEvent sampleResources sampleJSON
    "arn:minio:sns" "listen" "us-east-1" "node1:9000" 5000 (λ _, true)
    fuel sends sampleAPI responseWriter sampleRequest st.

Definition sampleARN : string := "arn:minio:sns:us-east-1:1000:listen-node1:9000".

(** The streaming loop of the sample deployment. *)
Definition sampleStream (fuel : nat)
    (sends : list (Z * option (list sampleEvent))) : World sampleConfig :=
  (sendBucketNotification sampleConfig sampleEvent sampleJSON 5000 (λ _, true)
     fuel (Some responseWriter)
     (mkChan sampleEvent 0 sends) world0).2.

(** [{"Records":["s3:ObjectCreated:Put"]}] and [{"Records":null}], each
    followed by CRLF. *)
Definition eventFrame : bytes :=
  "{" +:+ quoted "Records" +:+ ":[" +:+ quoted "s3:ObjectCreated:Put" +:+ "]}"
    +:+ crlf.
Definition heartbeatFrame : bytes :=
  "{" +:+ quoted "Records" +:+ ":null}" +:+ crlf.

(** C8, as stated, asks the list framed for a batch received from the channel
    to be non-empty: what the [select] of the sample loop, entered at [now],
    says of the batch it receives. *)
Definition receivedNonEmpty (now : Z)
    (sends : list (Z * option (list sampleEvent))) : bool :=
  match selectCase sampleEvent 5000 (λ _, true) now sends with
  | SelEvents _ (Some (_ :: _)) _ _ => true
  | SelEvents _ _ _ _ => false
  | SelTimeout _ => true
  end.

(** [{"Records":[]}] followed by the bytes 13 and 10. *)
Definition emptyListFrame : bytes :=
  "{" +:+ quoted "Records" +:+ ":[]}"
    +:+ String (Ascii.ascii_of_nat 13) (String (Ascii.ascii_of_nat 10) EmptyString).

(** The client goes away after two writes. *)
Definition brokenPipe : error sampleConfig := errWrite sampleConfig "broken pipe".
Definition worldTwoWrites : World sampleConfig :=
  set_writeFaults sampleConfig (λ _, [None; None; Some brokenPipe]) world0.

(** No bucket exists. *)
Definition worldNoBucket : World sampleConfig :=
  mkWorld sampleConfig ∅ ∅ ∅ [] ∅ ∅ ∅ ∅ 0 0 1000 [] [] [].

(** The destination identifier of a request made at instant 1000 is taken by
    channel 7. *)
Definition worldTaken : World sampleConfig :=
  set_notifierChans sampleConfig (λ _, {[ sampleARN := 7 ]}) world0.

(** The listen handler of the sample deployment on a server that is not
    initialised. *)
Definition sampleListenUninitialised (st : World sampleConfig)
    : bool * World sampleConfig :=
  ListenBucketNotificationHandler sampleConfig sampleEvent true unit sampleAuth
    sampleErrorCode sampleValidate sampleCheckEvent sampleResources sampleJSON
    "arn:minio:sns" "listen" "us-east-1" "node1:9000" 5000 (λ _, true)
    1 [] (mkAPI None) responseWriter sampleRequest st.


(** Two batches that wait on the channel from instants 900 and 950 on. *)
Definition sampleBacklog : list (Z * option (list sampleEvent)) :=
  [(900%Z, Some ["s3:ObjectCreated:Put"]); (950%Z, Some ["s3:ObjectRemoved:Delete"])].
Definition removedFrame : bytes :=
  "{" +:+ quoted "Records" +:+ ":[" +:+ quoted "s3:ObjectRemoved:Delete" +:+ "]}"
    +:+ crlf.

(** ** The properties on the sample deployment *)

(** C1 (counterexample): adding the listener [lcA] to [photos] in a multi-node
    deployment, and removing it again from a bucket that has it, read the
    cached sequence before [Lock] is called: the lock does not come first. *)
Lemma lock_is_not_before_read :
  lockedBeforeRead "photos"
    (newCalls sampleConfig world0
       (AddBucketListenerConfig sampleConfig true "photos" (Some lcA)
          objectLayer world0).2) = false
  ∧ lockedBeforeRead "photos"
      (newCalls sampleConfig worldAB
         (RemoveBucketListenerConfig sampleConfig true "photos" (Some lcA)
            objectLayer worldAB).2) = false.
Proof. split; vm_compute; reflexivity. Qed.

(** C1 (witness): removing [lcA] from [worldAB]. *)
Lemma lock_after_read_held_through_broadcast_witness :
  removeLoop (cachedListeners sampleConfig worldAB "photos") (arnOf lcA) 0
    (cachedListeners sampleConfig worldAB "photos") = Some [lcB]
  ∧ calls sampleConfig
      (RemoveBucketListenerConfig sampleConfig true "photos" (Some lcA)
         objectLayer worldAB).2 =
      [CGetBucketListenerConfig sampleConfig "photos";
       CLock sampleConfig "photos" "" 0;
       CPersistListenerConfig sampleConfig "photos" [lcB] None;
       CUpdateBucketListener sampleConfig "photos" [lcB];
       CUnlock sampleConfig "photos" "" 0].
Proof.
  split; [vm_compute; reflexivity|].
  pose proof (proj2 (lock_after_read_held_through_broadcast sampleConfig true
                       "photos" lcA objectLayer worldAB) [lcB]) as H.
  apply H. vm_compute. reflexivity.
Defined.

(** C2 (witness): the object layer of [worldDown] refuses the persist, that of
    [world0] accepts it. *)
Lemma persist_failure_returns_error_without_broadcast_witness :
  (nextFault sampleConfig worldDown = Some diskOffline
   ∧ (PutBucketNotificationConfig sampleConfig "photos" (Some ["dest1"])
        objectLayer worldDown).1
     = Some (errPersistNotification sampleConfig ["dest1"] diskOffline)
   ∧ (AddBucketListenerConfig sampleConfig true "photos" (Some lcA)
        objectLayer worldDown).1
     = Some diskOffline)
  ∧ (existsb (isBroadcast sampleConfig)
       (newCalls sampleConfig world0
          (PutBucketNotificationConfig sampleConfig "photos" (Some ["dest1"])
             objectLayer world0).2) = true
     ∧ occursBefore sampleConfig (isPersistOk sampleConfig)
         (isBroadcast sampleConfig)
         (newCalls sampleConfig world0
            (PutBucketNotificationConfig sampleConfig "photos" (Some ["dest1"])
               objectLayer world0).2) = true
     ∧ occursBefore sampleConfig (isPersistOk sampleConfig)
         (isBroadcast sampleConfig)
         (newCalls sampleConfig world0
            (AddBucketListenerConfig sampleConfig true "photos" (Some lcA)
               objectLayer world0).2) = true).
Proof.
  pose proof (persist_failure_returns_error_without_broadcast sampleConfig true
                "photos" objectLayer worldDown) as (HputFail & HaddFail & _ & _).
  pose proof (persist_failure_returns_error_without_broadcast sampleConfig true
                "photos" objectLayer world0) as (_ & _ & HputOk & HaddOk).
  split; split_and!.
  - vm_compute; reflexivity.
  - apply (HputFail ["dest1"] diskOffline). vm_compute; reflexivity.
  - apply (HaddFail lcA diskOffline); [reflexivity | vm_compute; reflexivity].
  - vm_compute; reflexivity.
  - apply (HputOk ["dest1"]). vm_compute; reflexivity.
  - apply (HaddOk lcA); [vm_compute; reflexivity | reflexivity].
Defined.

(** C3 (witness): [photos] has no stored configuration in [world0]. *)
Lemma GetBucketNotificationHandler_absent_is_empty_witness :
  (loadNotificationConfig sampleConfig (bucketOf unit sampleRequest) objectLayer
     world0).1.2 = Some (errNoSuchNotifications sampleConfig)
  ∧ sent sampleConfig
      (GetBucketNotificationHandler sampleConfig [] unit sampleAuth
         sampleErrorCode sampleXML sampleAPI responseWriter sampleRequest
         world0).2
    = [WSuccess (Some emptyXML)].
Proof.
  split; [vm_compute; reflexivity|].
  apply (GetBucketNotificationHandler_absent_is_empty sampleConfig [] unit
           sampleAuth sampleErrorCode sampleXML sampleAPI objectLayer
           responseWriter sampleRequest world0 emptyXML);
    [reflexivity | reflexivity | vm_compute; reflexivity | reflexivity].
Defined.

(** C4 (witness): in [worldFailing] the bucket lookup succeeds and the persist
    of the listener is refused. *)
Lemma listen_registration_failure_cleans_up_witness :
  storageFaults sampleConfig worldFailing = [None; Some diskOffline]
  ∧ (sampleListen 3 [] worldFailing).1 = true
  ∧ sent sampleConfig (sampleListen 3 [] worldFailing).2
    = [WError (ErrOther 500) "/photos"]
  ∧ notifierChans sampleConfig (sampleListen 3 [] worldFailing).2 !! sampleARN
    = None
  ∧ notifierListeners sampleConfig (sampleListen 3 [] worldFailing).2 = ∅.
Proof.
  split; [reflexivity|].
  pose proof (listen_registration_failure_cleans_up sampleConfig sampleEvent
                true unit sampleAuth sampleErrorCode sampleValidate
                sampleCheckEvent sampleResources sampleJSON
                "arn:minio:sns" "listen" "us-east-1" "node1:9000" 5000
                (λ _, true) 3 [] sampleAPI objectLayer responseWriter
                sampleRequest worldFailing diskOffline []) as H.
  destruct H as (Hret & Hsent & Hchans & Hfree & Hcache & _).
  - reflexivity.
  - reflexivity.
  - reflexivity.
  - reflexivity.
  - reflexivity.
  - reflexivity.
  - vm_compute; reflexivity.
  - reflexivity.
  - vm_compute; reflexivity.
  - split_and!.
    + exact Hret.
    + exact Hsent.
    + exact Hfree.
    + exact Hcache.
Defined.

(** C5 (witness): [lcA'] was never registered in a bucket that holds only
    [lcB]; and [lcA] removed twice from [worldAB]. *)
Lemma remove_absent_listener_is_noop_witness :
  RemoveBucketListenerConfig sampleConfig true "photos" (Some lcA') objectLayer
    (set_notifierListeners sampleConfig (λ _, {[ "photos" := [lcB] ]}) world0)
  = (Returned,
     set_calls sampleConfig
       (λ l, l ++ [CGetBucketListenerConfig sampleConfig "photos"])
       (set_notifierListeners sampleConfig (λ _, {[ "photos" := [lcB] ]}) world0))
  ∧ RemoveBucketListenerConfig sampleConfig true "photos" (Some lcA) objectLayer
      (RemoveBucketListenerConfig sampleConfig true "photos" (Some lcA)
         objectLayer worldAB).2
    = (Returned,
       set_calls sampleConfig
         (λ l, l ++ [CGetBucketListenerConfig sampleConfig "photos"])
         (RemoveBucketListenerConfig sampleConfig true "photos" (Some lcA)
            objectLayer worldAB).2).
Proof.
  split.
  - apply (remove_absent_listener_is_noop sampleConfig true "photos" lcA'
             objectLayer).
    apply (bool_decide_unpack _). vm_compute. exact I.
  - apply (remove_absent_listener_is_noop sampleConfig true "photos" lcA
             objectLayer worldAB).
    + apply (bool_decide_unpack _). vm_compute. exact I.
    + right. reflexivity.
Defined.

(** C6 (witness): [worldABA] holds [lcA] and [lcA'], which share their
    identifier; removing [lcA] leaves [lcA'] in place. *)
Lemma remove_drops_first_match_only_witness :
  cachedListeners sampleConfig worldABA "photos" = [lcB] ++ lcA :: [lcB; lcA']
  ∧ removeLoop ([lcB] ++ lcA :: [lcB; lcA']) (arnOf lcA) 0
      ([lcB] ++ lcA :: [lcB; lcA']) = Some ([lcB] ++ [lcB; lcA'])
  ∧ cachedListeners sampleConfig
      (RemoveBucketListenerConfig sampleConfig true "photos" (Some lcA)
         objectLayer worldABA).2 "photos"
    = [lcB; lcB; lcA'].
Proof.
  pose proof (remove_drops_first_match_only sampleConfig true "photos" lcA
                objectLayer worldABA [lcB] [lcB; lcA'] lcA) as H.
  destruct H as (Hloop & _ & Hcache).
  - vm_compute; reflexivity.
  - apply (bool_decide_unpack _). vm_compute. exact I.
  - reflexivity.
  - split_and!.
    + vm_compute; reflexivity.
    + exact Hloop.
    + apply Hcache. right. reflexivity.
Defined.

(** C7 (witness): the same operations in a single-node deployment. *)
Lemma single_node_skips_durable_store_witness :
  objListener sampleConfig
    (AddBucketListenerConfig sampleConfig false "photos" (Some lcA) objectLayer
       world0).2 = ∅
  ∧ notifierListeners sampleConfig
      (AddBucketListenerConfig sampleConfig false "photos" (Some lcA)
         objectLayer world0).2 = <[ "photos" := [lcA] ]> ∅
  ∧ existsb (isPersist sampleConfig)
      (newCalls sampleConfig worldAB
         (RemoveBucketListenerConfig sampleConfig false "photos" (Some lcA)
            objectLayer worldAB).2) = false.
Proof.
  pose proof (single_node_skips_durable_store sampleConfig false "photos"
                (Some lcA) objectLayer world0 eq_refl)
    as [(Hstore & _ & _ & _ & Hadd) _].
  pose proof (single_node_skips_durable_store sampleConfig false "photos"
                (Some lcA) objectLayer worldAB eq_refl)
    as [_ (_ & _ & _ & Hpersist & _)].
  split_and!.
  - exact Hstore.
  - exact (proj2 (Hadd lcA eq_refl)).
  - exact Hpersist.
Defined.

(** C8 (counterexample): an empty batch is offered on the channel before the
    loop is entered.  The [select] receives it, and the unit written for this
    delivered batch carries the empty list. *)
Lemma delivered_batch_may_be_empty :
  receivedNonEmpty (clock sampleConfig world0) [(0%Z, Some [])] = false
  ∧ chunksOf (newlySent sampleConfig world0 (sampleStream 1 [(0%Z, Some [])]))
    = [emptyListFrame].
Proof. split; vm_compute; reflexivity. Qed.

(** C8 (witness): a batch offered 500 ns after the loop is entered, then
    silence.  The first unit frames the batch, which is not empty, and ends
    with the bytes 13 and 10. *)
Lemma streamed_units_are_records_frames_witness :
  chunksOf (newlySent sampleConfig world0
              (sampleStream 2 [(1500%Z, Some ["s3:ObjectCreated:Put"])]))
    = [eventFrame; heartbeatFrame]
  ∧ ∃ v b, sampleJSON {[ "Records" := v ]} = inl b
      ∧ eventFrame
        = b +:+ String (Ascii.ascii_of_nat 13)
                  (String (Ascii.ascii_of_nat 10) EmptyString)
      ∧ (v = None ∨ ∃ t, (t, v) ∈ [(1500%Z, Some ["s3:ObjectCreated:Put"])])
      ∧ (v = None ∨ ∃ e l, v = Some (e :: l)).
Proof.
  split; [vm_compute; reflexivity|].
  destruct (proj1 (proj2 (streamed_units_are_records_frames sampleConfig
                            sampleEvent sampleJSON 5000 (λ _, true) 2
                            (Some responseWriter)
                            (mkChan sampleEvent 0
                               [(1500%Z, Some ["s3:ObjectCreated:Put"])])
                            world0)) eventFrame)
    as (v & b & Hjson & Hunit & Hfrom & Hfull).
  { vm_compute. left. }
  exists v, b. split_and!; [exact Hjson | exact Hunit | exact Hfrom |].
  apply Hfull. apply Forall_cons. split; [|by apply Forall_nil].
  by exists "s3:ObjectCreated:Put", [].
Defined.

(** C9 (witness): the first batch is offered 6000 ns after the loop is
    entered, later than the keep-alive interval of 5000 ns. *)
Lemma idle_listener_gets_heartbeat_first_witness :
  Forall (λ s : Z * option (list sampleEvent),
            (clock sampleConfig world0 + 5000 < s.1)%Z)
    [(7000%Z, Some ["s3:ObjectCreated:Put"])]
  ∧ ∃ rest,
      chunksOf (newlySent sampleConfig world0
                  (sampleStream 2 [(7000%Z, Some ["s3:ObjectCreated:Put"])]))
        = heartbeatFrame :: rest.
Proof.
  assert (Hidle : Forall (λ s : Z * option (list sampleEvent),
                            (clock sampleConfig world0 + 5000 < s.1)%Z)
                    [(7000%Z, Some ["s3:ObjectCreated:Put"])]).
  { apply (bool_decide_unpack _). vm_compute. exact I. }
  split; [exact Hidle|].
  apply (proj2 (idle_listener_gets_heartbeat_first sampleConfig sampleEvent
                  sampleJSON 5000 (λ _, true) 2 (Some responseWriter)
                  (mkChan sampleEvent 0 [(7000%Z, Some ["s3:ObjectCreated:Put"])])
                  world0 Hidle) 1 responseWriter
           ("{" +:+ quoted "Records" +:+ ":null}")).
  - reflexivity.
  - reflexivity.
  - vm_compute; reflexivity.
  - left. reflexivity.
Defined.

(** ** The further properties on the sample deployment *)

Lemma sampleJSON_records : recordsMarshal sampleConfig sampleEvent sampleJSON.
Proof. intros v. eexists. reflexivity. Qed.

(** X1 (witness): a configuration for [photos] in [world0]. *)
Lemma PutBucketNotificationConfig_overwrites_witness :
  nextFault sampleConfig world0 = None
  ∧ objNotification sampleConfig
      (PutBucketNotificationConfig sampleConfig "photos" (Some ["dest1"])
         objectLayer world0).2 = <[ "photos" := ["dest1"] ]> ∅.
Proof.
  split; [reflexivity|].
  apply (PutBucketNotificationConfig_overwrites sampleConfig "photos" ["dest1"]
           objectLayer world0 eq_refl).
Defined.

(** X2 (witness): put, then get, on [photos]. *)
Lemma put_then_get_returns_configuration_witness :
  storageAccepts sampleConfig 2 world0
  ∧ sent sampleConfig
      (GetBucketNotificationHandler sampleConfig [] unit sampleAuth
         sampleErrorCode sampleXML sampleAPI responseWriter sampleRequest
         (PutBucketNotificationConfig sampleConfig "photos" (Some ["dest1"])
            objectLayer world0).2).2
    = [WSuccess
         (Some "<NotificationConfiguration>dest1</NotificationConfiguration>")].
Proof.
  assert (Hok : storageAccepts sampleConfig 2 world0) by constructor.
  split; [exact Hok|].
  apply (put_then_get_returns_configuration sampleConfig [] unit sampleAuth
           sampleErrorCode sampleXML sampleAPI objectLayer responseWriter
           sampleRequest ["dest1"] world0
           "<NotificationConfiguration>dest1</NotificationConfiguration>");
    [reflexivity | reflexivity | exact Hok | reflexivity].
Defined.

(** X3 (witness): [lcA] removed from a sequence that names it twice. *)
Lemma removeLoop_keeps_other_listeners_witness :
  removeLoop [lcB; lcA; lcB; lcA'] (arnOf lcA) 0 [lcB; lcA; lcB; lcA']
    = Some [lcB; lcB; lcA']
  ∧ length [lcB; lcA; lcB; lcA'] = S (length [lcB; lcB; lcA']).
Proof.
  split; [vm_compute; reflexivity|].
  apply (proj2 (removeLoop_keeps_other_listeners [lcB; lcA; lcB; lcA']
                  (arnOf lcA)) [lcB; lcB; lcA']).
  vm_compute; reflexivity.
Defined.

(** X4 (witness): [lcA'] added to and removed from a bucket that holds
    [lcB]. *)
Lemma add_then_remove_restores_listeners_witness :
  Forall (λ c, arnOf c ≠ arnOf lcA')
    (cachedListeners sampleConfig
       (set_notifierListeners sampleConfig (λ _, {[ "photos" := [lcB] ]}) world0)
       "photos")
  ∧ cachedListeners sampleConfig
      (RemoveBucketListenerConfig sampleConfig true "photos" (Some lcA')
         objectLayer
         (AddBucketListenerConfig sampleConfig true "photos" (Some lcA')
            objectLayer
            (set_notifierListeners sampleConfig
               (λ _, {[ "photos" := [lcB] ]}) world0)).2).2 "photos"
    = [lcB].
Proof.
  assert (Hnew : Forall (λ c, arnOf c ≠ arnOf lcA')
            (cachedListeners sampleConfig
               (set_notifierListeners sampleConfig
                  (λ _, {[ "photos" := [lcB] ]}) world0) "photos")).
  { apply (bool_decide_unpack _). vm_compute. exact I. }
  split; [exact Hnew|].
  apply (add_then_remove_restores_listeners sampleConfig true "photos" lcA'
           objectLayer _ Hnew).
  right. constructor.
Defined.

(** X5 (witness): [lcA] removed from [worldAB] while the object layer is
    down. *)
Lemma remove_swallows_persist_failure_witness :
  nextFault sampleConfig
    (set_storageFaults sampleConfig (λ _, [Some diskOffline]) worldAB)
    = Some diskOffline
  ∧ (RemoveBucketListenerConfig sampleConfig true "photos" (Some lcA)
       objectLayer
       (set_storageFaults sampleConfig (λ _, [Some diskOffline]) worldAB)).1
    = Returned
  ∧ existsb (isBroadcast sampleConfig)
      (newCalls sampleConfig
         (set_storageFaults sampleConfig (λ _, [Some diskOffline]) worldAB)
         (RemoveBucketListenerConfig sampleConfig true "photos" (Some lcA)
            objectLayer
            (set_storageFaults sampleConfig (λ _, [Some diskOffline]) worldAB)).2)
    = false.
Proof.
  split; [reflexivity|].
  pose proof (remove_swallows_persist_failure sampleConfig true "photos" lcA
                objectLayer
                (set_storageFaults sampleConfig (λ _, [Some diskOffline]) worldAB)
                [lcB] diskOffline eq_refl) as H.
  destruct H as (Hret & Hquiet & _).
  - vm_compute; reflexivity.
  - reflexivity.
  - split; [exact Hret | exact Hquiet].
Defined.

(** X6 (witness): one unit written to a client that listens. *)
Lemma writeNotification_delivers_iff_nil_witness :
  (writeNotification sampleConfig sampleEvent sampleJSON (Some responseWriter)
     (Some {[ "Records" := None ]}) world0).1 = None
  ∧ ∃ m b, Some {[ "Records" := None ]} = Some m ∧ sampleJSON m = inl b
      ∧ chunksOf
          (newlySent sampleConfig world0
             (writeNotification sampleConfig sampleEvent sampleJSON
                (Some responseWriter) (Some {[ "Records" := None ]}) world0).2)
        = [b +:+ crlf].
Proof.
  split; [reflexivity|].
  apply (proj1 (writeNotification_delivers_iff_nil sampleConfig sampleEvent
                  sampleJSON (Some responseWriter)
                  (Some {[ "Records" := None ]}) world0)).
  reflexivity.
Defined.

(** X8 (witness): the client of [worldTwoWrites] takes two writes. *)
Lemma sendBucketNotification_stops_at_first_write_error_witness :
  writeFaults sampleConfig worldTwoWrites
    = replicate 2 None ++ Some brokenPipe :: []
  ∧ (sendBucketNotification sampleConfig sampleEvent sampleJSON 5000
       (λ _, true) 5 (Some responseWriter) (mkChan sampleEvent 0 [])
       worldTwoWrites).1 = true
  ∧ calls sampleConfig
      (sendBucketNotification sampleConfig sampleEvent sampleJSON 5000
         (λ _, true) 5 (Some responseWriter) (mkChan sampleEvent 0 [])
         worldTwoWrites).2
    = [CErrorIf sampleConfig brokenPipe msgWrite].
Proof.
  split; [reflexivity|].
  pose proof (sendBucketNotification_stops_at_first_write_error sampleConfig
                sampleEvent sampleJSON 5000 (λ _, true) 2 5 responseWriter
                (mkChan sampleEvent 0 []) worldTwoWrites brokenPipe []
                sampleJSON_records eq_refl) as H.
  destruct H as (Hret & _ & _ & Hcalls); [lia|].
  split; [exact Hret | exact Hcalls].
Defined.

(** X9 (witness): the client of [world0] listens. *)
Lemma sendBucketNotification_runs_while_client_listens_witness :
  clientListens sampleConfig world0
  ∧ (sendBucketNotification sampleConfig sampleEvent sampleJSON 5000
       (λ _, true) 4 (Some responseWriter) (mkChan sampleEvent 0 sampleBacklog)
       world0).1 = false
  ∧ length
      (chunksOf
         (newlySent sampleConfig world0
            (sendBucketNotification sampleConfig sampleEvent sampleJSON 5000
               (λ _, true) 4 (Some responseWriter)
               (mkChan sampleEvent 0 sampleBacklog) world0).2)) = 4.
Proof.
  assert (Hl : clientListens sampleConfig world0) by constructor.
  split; [exact Hl|].
  pose proof (sendBucketNotification_runs_while_client_listens sampleConfig
                sampleEvent sampleJSON 5000 (λ _, true) 4 responseWriter
                (mkChan sampleEvent 0 sampleBacklog) world0
                sampleJSON_records Hl) as (Hret & Hlen & _).
  split; [exact Hret | exact Hlen].
Defined.

(** X10 (witness): the two batches of [sampleBacklog]. *)
Lemma sendBucketNotification_delivers_backlog_in_order_witness :
  Forall (λ s : Z * option (list sampleEvent),
            (s.1 ≤ clock sampleConfig world0)%Z)
    (take 2 sampleBacklog)
  ∧ chunksOf
      (newlySent sampleConfig world0
         (sendBucketNotification sampleConfig sampleEvent sampleJSON 5000
            (λ _, true) 2 (Some responseWriter)
            (mkChan sampleEvent 0 sampleBacklog) world0).2)
    = [eventFrame; removedFrame]
  ∧ Forall2 (λ (s : Z * option (list sampleEvent)) unit_,
               isFrameOf sampleConfig sampleEvent sampleJSON s.2 unit_)
      (take 2 sampleBacklog)
      (chunksOf
         (newlySent sampleConfig world0
            (sendBucketNotification sampleConfig sampleEvent sampleJSON 5000
               (λ _, true) 2 (Some responseWriter)
               (mkChan sampleEvent 0 sampleBacklog) world0).2)).
Proof.
  assert (Hready : Forall (λ s : Z * option (list sampleEvent),
                             (s.1 ≤ clock sampleConfig world0)%Z)
                     (take 2 sampleBacklog)).
  { apply (bool_decide_unpack _). vm_compute. exact I. }
  split; [exact Hready|]. split; [vm_compute; reflexivity|].
  apply (sendBucketNotification_delivers_backlog_in_order sampleConfig
           sampleEvent sampleJSON 5000 (λ _, true) 2 responseWriter
           (mkChan sampleEvent 0 sampleBacklog) world0 sampleJSON_records).
  - constructor.
  - reflexivity.
  - exact Hready.
  - simpl. lia.
Defined.

(** X11 (witness): two requests one nanosecond apart. *)
Lemma accountARN_differs_across_instants_witness :
  (1000 ≠ 1001)%Z
  ∧ accountARNOf "arn:minio:sns" "listen" "us-east-1" "node1:9000" 1000
    ≠ accountARNOf "arn:minio:sns" "listen" "us-east-1" "node1:9000" 1001.
Proof.
  assert (Hne : (1000 ≠ 1001)%Z) by lia.
  split; [exact Hne|].
  exact (accountARN_differs_across_instants "arn:minio:sns" "listen"
           "us-east-1" "node1:9000" 1000 1001 Hne).
Defined.

(** X12 (witness): the server is not initialised. *)
Lemma listen_rejected_request_has_no_effect_witness :
  ObjectAPI (mkAPI None) = None
  ∧ ∃ code, code ≠ ErrNone
      ∧ sampleListenUninitialised world0
        = (true,
           set_sent sampleConfig (λ l, l ++ [WError code "/photos"]) world0).
Proof.
  split; [reflexivity|].
  apply (listen_rejected_request_has_no_effect sampleConfig sampleEvent true
           unit sampleAuth sampleErrorCode sampleValidate sampleCheckEvent
           sampleResources sampleJSON "arn:minio:sns" "listen" "us-east-1"
           "node1:9000" 5000 (λ _, true) 1 [] (mkAPI None) responseWriter
           sampleRequest world0).
  left. reflexivity.
Defined.

(** X13 (witness): [photos] does not exist in [worldNoBucket]. *)
Lemma listen_unknown_bucket_registers_nothing_witness :
  (GetBucketInfo sampleConfig objectLayer "photos" worldNoBucket).1
    = Some (errBucketNotFound sampleConfig)
  ∧ (sampleListen 3 [] worldNoBucket).1 = true
  ∧ sent sampleConfig (sampleListen 3 [] worldNoBucket).2
    = [WError (ErrOther 500) "/photos"]
  ∧ chanCounter sampleConfig (sampleListen 3 [] worldNoBucket).2 = 0
  ∧ notifierChans sampleConfig (sampleListen 3 [] worldNoBucket).2 = ∅.
Proof.
  split; [vm_compute; reflexivity|].
  pose proof (listen_unknown_bucket_registers_nothing sampleConfig sampleEvent
                true unit sampleAuth sampleErrorCode sampleValidate
                sampleCheckEvent sampleResources sampleJSON
                "arn:minio:sns" "listen" "us-east-1" "node1:9000" 5000
                (λ _, true) 3 [] sampleAPI objectLayer responseWriter
                sampleRequest worldNoBucket (errBucketNotFound sampleConfig)
                eq_refl eq_refl eq_refl eq_refl eq_refl) as H.
  destruct H as (Hret & Hsent & _ & Hctr & Hchans & _).
  - vm_compute; reflexivity.
  - split_and!; [exact Hret | exact Hsent | exact Hctr | exact Hchans].
Defined.

(** X14 (witness): the identifier of the request is taken in [worldTaken]. *)
Lemma listen_collision_keeps_registered_listener_witness :
  notifierChans sampleConfig worldTaken !! sampleARN = Some 7
  ∧ (sampleListen 3 [] worldTaken).1 = true
  ∧ notifierChans sampleConfig (sampleListen 3 [] worldTaken).2 !! sampleARN
    = Some 7
  ∧ notifierListeners sampleConfig (sampleListen 3 [] worldTaken).2 = ∅.
Proof.
  assert (Htaken : notifierChans sampleConfig worldTaken !! sampleARN = Some 7)
    by (vm_compute; reflexivity).
  split; [exact Htaken|].
  pose proof (listen_collision_keeps_registered_listener sampleConfig
                sampleEvent true unit sampleAuth sampleErrorCode sampleValidate
                sampleCheckEvent sampleResources sampleJSON
                "arn:minio:sns" "listen" "us-east-1" "node1:9000" 5000
                (λ _, true) 3 [] sampleAPI objectLayer responseWriter
                sampleRequest worldTaken 7
                eq_refl eq_refl eq_refl eq_refl eq_refl) as H.
  destruct H as (Hret & _ & Hchans & Hcache & _).
  - vm_compute; reflexivity.
  - reflexivity.
  - vm_compute; reflexivity.
  - split_and!; [exact Hret | | exact Hcache].
    change (notifierChans sampleConfig (sampleListen 3 [] worldTaken).2 !! sampleARN = Some 7).
    unfold sampleListen. rewrite Hchans. exact Htaken.
Defined.

(** X15 (witness): a session on [photos] whose client takes two writes. *)
Lemma listen_session_cleans_up_on_disconnect_witness :
  writeFaults sampleConfig worldTwoWrites
    = replicate 2 None ++ Some brokenPipe :: []
  ∧ (sampleListen 5 sampleBacklog worldTwoWrites).1 = true
  ∧ notifierChans sampleConfig (sampleListen 5 sampleBacklog worldTwoWrites).2
    = ∅
  ∧ cachedListeners sampleConfig
      (sampleListen 5 sampleBacklog worldTwoWrites).2 "photos" = []
  ∧ length
      (chunksOf
         (newlySent sampleConfig worldTwoWrites
            (sampleListen 5 sampleBacklog worldTwoWrites).2)) = 2.
Proof.
  split; [reflexivity|].
  pose proof (listen_session_cleans_up_on_disconnect sampleConfig sampleEvent
                true unit sampleAuth sampleErrorCode sampleValidate
                sampleCheckEvent sampleResources sampleJSON
                "arn:minio:sns" "listen" "us-east-1" "node1:9000" 5000
                (λ _, true) 5 2 sampleBacklog sampleAPI objectLayer
                responseWriter sampleRequest worldTwoWrites brokenPipe []
                eq_refl eq_refl eq_refl eq_refl eq_refl) as H.
  destruct H as (Hret & Hchans & Hcache & _ & Hlen).
  - vm_compute; reflexivity.
  - reflexivity.
  - vm_compute; reflexivity.
  - constructor.
  - exact sampleJSON_records.
  - reflexivity.
  - lia.
  - split_and!; [exact Hret | exact Hchans | exact Hcache | exact Hlen].
Defined.

(** X18 (witness): three intervals of silence. *)
Lemma sendBucketNotification_heartbeat_cadence_witness :
  clientListens sampleConfig world0
  ∧ clock sampleConfig (sampleStream 3 []) = 16000%Z
  ∧ chunksOf (newlySent sampleConfig world0 (sampleStream 3 []))
    = [heartbeatFrame; heartbeatFrame; heartbeatFrame].
Proof.
  assert (Hl : clientListens sampleConfig world0) by constructor.
  split; [exact Hl|].
  pose proof (sendBucketNotification_heartbeat_cadence sampleConfig sampleEvent
                sampleJSON 5000 (λ _, true) 3 responseWriter
                (mkChan sampleEvent 0 []) world0 sampleJSON_records Hl eq_refl)
    as (Hclock & _ & _).
  split; [exact Hclock | vm_compute; reflexivity].
Defined.


End Notification.
